(** * k3sup [install]: credential resolution and kubeconfig post-processing

    A shallow embedding of [cmd/install.go].  Pure string code
    ([rewriteKubeconfig]) is a Rocq function on byte lists; code that talks
    to the operating system ([mergeConfigs], [writeConfig], [sshAgent],
    [loadAuthMethod], [obtainKubeconfig], the [RunE] closure of
    [MakeInstall]) is written in a small state monad over a [World] that
    holds the files on disk with their modes, the open agent connections
    and the trace of calls made so far; what the outside world answers is
    read from an [Env] record. *)

From Stdlib Require Import List String Ascii Strings.Byte Bool Arith Lia ZArith.
From Stdlib Require Import DecimalString.
From stdpp Require Import base option gmap strings.
From Equations Require Import Equations.
Import ListNotations.

Local Open Scope string_scope.
Local Open Scope list_scope.

(** ** Byte strings

    A Go [string] is an immutable sequence of bytes and [[]byte(s)],
    [string(b)] copy it, so a document is a [list byte] on both sides of a
    conversion.  Paths, flag values and messages, which the program only
    compares, concatenates and passes on, are Rocq strings. *)

Definition bytes := list byte.

Definition b (s : string) : bytes := list_byte_of_string s.

Definition byte_eqb (x y : byte) : bool := Byte.eqb x y.

(** [strings.HasPrefix s prefix]. *)
Fixpoint HasPrefix (s prefix : bytes) {struct prefix} : bool :=
  match prefix, s with
  | [], _ => true
  | _ :: _, [] => false
  | p :: prefix', c :: s' => byte_eqb c p && HasPrefix s' prefix'
  end.

(** [strings.Contains s substr]. *)
Fixpoint Contains (s substr : bytes) : bool :=
  HasPrefix s substr ||
  match s with
  | [] => false
  | _ :: s' => Contains s' substr
  end.

(** [bytes.Equal]. *)
Fixpoint bytes_Equal (x y : bytes) : bool :=
  match x, y with
  | [], [] => true
  | c :: x', d :: y' => byte_eqb c d && bytes_Equal x' y'
  | _, _ => false
  end.

(** ** [strings.Replacer]

    [strings.NewReplacer(old1, new1, old2, new2, ...)] builds a replacer
    whose [Replace] walks the target once from left to right.  At each
    position the old strings are compared in argument order; on the first
    one that is a prefix of the rest of the target, its new string is
    written and the walk resumes behind the match, otherwise the byte at
    the position is copied.  What has been written is never looked at
    again.  All old strings used by this program are non-empty. *)

Definition Replacer := list (bytes * bytes).

Fixpoint NewReplacer (oldnew : list bytes) : Replacer :=
  match oldnew with
  | old :: new :: rest => (old, new) :: NewReplacer rest
  | _ => []
  end.

Definition lookup_key (r : Replacer) (s : bytes) : option (bytes * bytes) :=
  find (fun p => HasPrefix s (fst p)) r.

Equations Replace (r : Replacer) (s : bytes) : bytes by wf (length s) lt :=
Replace r [] := [];
Replace r (c :: rest) with lookup_key r (c :: rest) := {
  | Some (old, new) => new ++ Replace r (drop (length old - 1) rest)
  | None => c :: Replace r rest }.
Next Obligation. rewrite length_drop. lia. Qed.

(** ** [rewriteKubeconfig] *)

(** The three literals the replacer looks for. *)
Definition tok_loopback : bytes := b "127.0.0.1".
Definition tok_localhost : bytes := b "localhost".
Definition tok_default : bytes := b "default".

Definition tokens : list bytes := [tok_loopback; tok_localhost; tok_default].

(** [if context == "" { context = "default" }] *)
Definition effective_context (context : bytes) : bytes :=
  match context with
  | [] => tok_default
  | _ => context
  end.

Definition kubeconfigReplacer (ip context : bytes) : Replacer :=
  NewReplacer [tok_loopback; ip; tok_localhost; ip; tok_default; context].

Definition rewriteKubeconfig (kubeconfig ip context : bytes) : bytes :=
  let context := effective_context context in
  Replace (kubeconfigReplacer ip context) kubeconfig.


(** ** The outside world *)

(** The text of an error reported by the operating system or a library. *)
Definition oserror := string.

Inductive result (A : Type) : Type :=
| Ok (a : A)
| Err (e : oserror).
Arguments Ok {A} a.
Arguments Err {A} e.

(** The errors the program itself builds, one constructor for each
    [fmt.Errorf] / [errors.Wrapf] site (and [Passed] for an error handed
    on as it is). *)
Inductive error : Type :=
| DatastoreSSLMode            (* "remove ssl-mode=REQUIRED from your datastore string..." *)
| DatastoreMySQLHost          (* "you must specify the mysql host as tcp(host:port)..." *)
| NoVersionOrChannel          (* "give a value for --k3s-version or --k3s-channel" *)
| AgentUnreachable (cause : oserror)             (* "unable to reach SSH Agent" *)
| KeyReadError (path : string) (cause : oserror) (* "unable to read file: %s, %s" *)
| KeyParseError (cause : oserror)                (* "unable to parse private key: %s" *)
| PassphraseParseError (cause : oserror)         (* "parse private key with passphrase failed: %s" *)
| ConnectError (address : string) (cause : oserror) (* "unable to connect to %s over ssh" *)
| ExecutionError (cause : oserror)               (* "error received processing command: %s" *)
| TempFileError (cause : oserror)                (* "Could not generate a temporary file..." *)
| MergeToolError (cause : oserror)               (* "Could not merge kubeconfigs: %s" *)
| TempCleanupError (path : string) (cause : oserror) (* "Could not remove temporary kubeconfig file: %s" *)
| Passed (cause : oserror).

(** An agent connection is known by the order in which it was dialed. *)
Definition conn := nat.

Definition Signer := nat.

(** [agent.Key]: an identity held by the agent. *)
Record Key := { Format : string; Blob : bytes; Comment : string }.

(** [ssh.PublicKey], as far as the program looks at it. *)
Record PublicKey := { Marshal : bytes }.

(** [ssh.AuthMethod]: [ssh.PublicKeysCallback(agent.NewClient(c).Signers)]
    for an agent connection [c], or [ssh.PublicKeys(signer)]. *)
Inductive AuthMethod : Type :=
| PublicKeysCallback (c : conn)
| PublicKeys (signer : Signer).

(** The [func() error] values the program passes around. *)
Inductive closeFunc : Type :=
| noopCloseFunc                 (* func() error { return nil } *)
| connClose (c : conn).         (* sshAgentConn.Close *)

(** What [ssh.ParsePrivateKey] answers: a signer, a
    [*ssh.PassphraseMissingError], or any other error. *)
Inductive parsed : Type :=
| Parsed (signer : Signer)
| PassphraseMissing
| ParseFailed (e : oserror).

(** Where a command runs: [operator.ExecOperator] or an SSH operator
    connected to an address. *)
Inductive target : Type :=
| Local
| Remote (address : string).

(** [operator.CommandRes]. *)
Record CommandRes := { StdOut : bytes; StdErr : bytes }.

(** The calls the program makes to the operating system and to libraries.
    Messages written to standard output are left out. *)
Inductive Event : Type :=
| EvDial (socket : string)                      (* net.Dial("unix", socket) *)
| EvAgentList (c : conn)                        (* agent.NewClient(c).List() *)
| EvConnClose (c : conn)                        (* c.Close() *)
| EvReadFile (path : string)                    (* ioutil.ReadFile *)
| EvReadPassword (path : string)                (* the prompt and terminal.ReadPassword *)
| EvTempFile (dir pattern : string)             (* ioutil.TempFile *)
| EvFileClose (path : string)                   (* file.Close() *)
| EvWriteFile (path : string) (data : bytes) (perm : N)  (* ioutil.WriteFile *)
| EvKubectl (kubeconfig : string)               (* kubectl config view --merge --flatten *)
| EvRemove (path : string)                      (* os.Remove *)
| EvSSHDial (address user : string) (auth : option AuthMethod)  (* operator.NewSSHOperator *)
| EvExecute (t : target) (command : string)     (* operator.Execute *)
| EvOperatorClose (address : string).           (* operator.Close() *)

(** The state the program acts on.  [files] maps the path of each file on
    disk to its content and [modes] to its permission bits. *)
Record World := {
  files : gmap string bytes;
  modes : gmap string N;
  dialed : nat;                 (* agent connections dialed so far *)
  open_conns : list conn;       (* those of them not closed yet *)
  trace : list Event            (* oldest call first *)
}.

(** How a write fails: before the file was opened ([reached] is [None],
    the disk is as it was), or after it was created or truncated and so
    many bytes of the data were written. *)
Record write_failure := { cause : oserror; reached : option nat }.

(** What the outside world answers. *)
Record Env := {
  Umask : N;                                            (* the umask of the process *)
  SSH_AUTH_SOCK : string;                               (* os.Getenv("SSH_AUTH_SOCK") *)
  net_Dial : string -> option oserror;                  (* [None]: the socket accepts *)
  agent_List : result (list Key);
  ssh_ParsePrivateKey : bytes -> parsed;
  ssh_ParsePrivateKeyWithPassphrase : bytes -> bytes -> result Signer;
  ssh_ParseAuthorizedKey : bytes -> result PublicKey;
  terminal_ReadPassword : bytes * option oserror;
  homedir_Expand : string -> result string;
  filepath_Abs : string -> string;
  os_TempDir : string;
  ioutil_TempFile : string -> string -> gmap string bytes -> result string;
  WriteFile_error : string -> option write_failure;
  Remove_error : string -> option oserror;
  kubectl_Output : string -> gmap string bytes -> result bytes;
  NewSSHOperator_error : string -> string -> option AuthMethod -> option oserror;
  operator_Execute : target -> string -> result CommandRes;
  strings_TrimSpace : string -> string;
  (* of package cmd, declared in other files *)
  getScript : string;
  createVersionStr : string -> string -> string
}.

(** [k3sExecOptions]. *)
Record k3sExecOptions := {
  Datastore : string;
  ExtraArgs : string;
  FlannelIPSec : bool;
  NoExtras : bool
}.

(** The flags of [k3sup install] as [RunE] reads them; [flag_ip] is the
    text [ip.String()] of the [--ip] flag. *)
Record Flags := {
  flag_ip : string;
  flag_user : string;
  flag_ssh_key : string;
  flag_ssh_port : Z;
  flag_sudo : bool;
  flag_skip_install : bool;
  flag_local_path : string;
  flag_context : string;
  flag_no_extras : bool;
  flag_ipsec : bool;
  flag_merge : bool;
  flag_local : bool;
  flag_cluster : bool;
  flag_print_command : bool;
  flag_datastore : string;
  flag_k3s_version : string;
  flag_k3s_extra_args : string;
  flag_k3s_channel : string;
  flag_tls_san : string
}.

Definition newline : string := String (ascii_of_nat 10) "".

(** [%d] of an [int]. *)
Definition Itoa (n : Z) : string := NilEmpty.string_of_int (Z.to_int n).

(** ** A state monad over the world *)

Definition M (A : Type) : Type := World -> A * World.

Definition ret {A} (a : A) : M A := fun w => (a, w).

Definition bind {A B} (m : M A) (k : A -> M B) : M B :=
  fun w => let (a, w') := m w in k a w'.

Notation "x <- m ;; k" := (bind m (fun x => k))
  (at level 100, m at next level, right associativity).
Notation "m ;;; k" := (bind m (fun _ => k))
  (at level 100, right associativity).

Definition emit (e : Event) : M unit :=
  fun w => (tt, {| files := files w; modes := modes w; dialed := dialed w;
                   open_conns := open_conns w; trace := trace w ++ [e] |}).

Definition set_files (f : gmap string bytes) : M unit :=
  fun w => (tt, {| files := f; modes := modes w; dialed := dialed w;
                   open_conns := open_conns w; trace := trace w |}).

Definition get_files : M (gmap string bytes) := fun w => (files w, w).

Definition set_modes (m : gmap string N) : M unit :=
  fun w => (tt, {| files := files w; modes := m; dialed := dialed w;
                   open_conns := open_conns w; trace := trace w |}).

Definition get_modes : M (gmap string N) := fun w => (modes w, w).

(** [defer f()]: [f] runs when the body returns, its result is dropped. *)
Definition defer {A B} (deferred : M B) (body : M A) : M A :=
  r <- body ;; deferred ;;; ret r.

(** ** The program *)

Section Program.

Variable env : Env.

(** *** Calls to the operating system and to libraries *)

Definition Dial (socket : string) : M (result conn) :=
  emit (EvDial socket) ;;;
  match net_Dial env socket with
  | Some e => ret (Err e)
  | None => fun w =>
      (Ok (dialed w),
       {| files := files w; modes := modes w; dialed := S (dialed w);
          open_conns := dialed w :: open_conns w; trace := trace w |})
  end.

Definition Close (c : conn) : M unit :=
  emit (EvConnClose c) ;;;
  fun w => (tt, {| files := files w; modes := modes w; dialed := dialed w;
                   open_conns := remove Nat.eq_dec c (open_conns w);
                   trace := trace w |}).

(** Calling a [func() error] value; no caller looks at the result. *)
Definition call (f : closeFunc) : M unit :=
  match f with
  | noopCloseFunc => ret tt
  | connClose c => Close c
  end.

Definition AgentList (c : conn) : M (result (list Key)) :=
  emit (EvAgentList c) ;;; ret (agent_List env).

Definition ReadFile (path : string) : M (result bytes) :=
  emit (EvReadFile path) ;;;
  fs <- get_files ;;
  ret match fs !! path with
      | Some data => Ok data
      | None => Err "no such file or directory"
      end.

Definition ReadPassword (path : string) : M (bytes * option oserror) :=
  emit (EvReadPassword path) ;;; ret (terminal_ReadPassword env).

Definition perm_0600 : N := 0x180.

(** Opening a file with [O_CREATE|O_TRUNC] and writing [data]: the
    content is replaced; a file that was not there gets the mode [perm]
    less the bits of the umask, a file that was there keeps its mode. *)
Definition store (path : string) (data : bytes) (perm : N) : M unit :=
  fs <- get_files ;;
  ms <- get_modes ;;
  set_files (<[path := data]> fs) ;;;
  set_modes (<[path := match ms !! path with
                       | Some mode => mode
                       | None => N.ldiff perm (Umask env)
                       end]> ms).

(** [ioutil.TempFile] creates and opens, with mode 0600, an empty file
    under a name of its choosing. *)
Definition TempFile (dir pattern : string) : M (result string) :=
  emit (EvTempFile dir pattern) ;;;
  fs <- get_files ;;
  ms <- get_modes ;;
  match ioutil_TempFile env dir pattern fs with
  | Ok name =>
      set_files (<[name := []]> fs) ;;;
      set_modes (<[name := N.ldiff perm_0600 (Umask env)]> ms) ;;;
      ret (Ok name)
  | Err e => ret (Err e)
  end.

(** [ioutil.WriteFile] opens the file with [O_WRONLY|O_CREATE|O_TRUNC]
    and [perm], writes the data and closes the file. *)
Definition WriteFile (path : string) (data : bytes) (perm : N)
  : M (option oserror) :=
  emit (EvWriteFile path data perm) ;;;
  match WriteFile_error env path with
  | Some failure =>
      match reached failure with
      | None => ret (Some (cause failure))
      | Some n => store path (take n data) perm ;;; ret (Some (cause failure))
      end
  | None => store path data perm ;;; ret None
  end.

Definition Remove (path : string) : M (option oserror) :=
  emit (EvRemove path) ;;;
  match Remove_error env path with
  | Some e => ret (Some e)
  | None =>
      fs <- get_files ;;
      ms <- get_modes ;;
      match fs !! path with
      | Some _ =>
          set_files (delete path fs) ;;; set_modes (delete path ms) ;;; ret None
      | None => ret (Some "no such file or directory")
      end
  end.

(** [exec.Command("kubectl", "config", "view", "--merge", "--flatten")]
    run with [kubeconfig] appended to the environment; [cmd.Output()]. *)
Definition kubectl (kubeconfig : string) : M (result bytes) :=
  emit (EvKubectl kubeconfig) ;;;
  fs <- get_files ;;
  ret (kubectl_Output env kubeconfig fs).

Definition NewSSHOperator (address user : string) (auth : option AuthMethod)
  : M (option oserror) :=
  emit (EvSSHDial address user auth) ;;;
  ret (NewSSHOperator_error env address user auth).

Definition Execute (t : target) (command : string) : M (result CommandRes) :=
  emit (EvExecute t command) ;;; ret (operator_Execute env t command).

(** *** [writeConfig] *)

Definition writeConfig (path : string) (data : bytes) (suppressMessage : bool)
  : M (option error) :=
  let absPath := filepath_Abs env path in
  writeErr <- WriteFile absPath data perm_0600 ;;
  match writeErr with
  | Some e => ret (Some (Passed e))
  | None => ret None
  end.

(** *** [mergeConfigs] *)

Definition mergeConfigs (localKubeconfigPath : string) (k3sconfig : bytes)
  : M (option bytes * option error) :=
  file <- TempFile (os_TempDir env) "k3s-temp-*" ;;
  match file with
  | Err e => ret (None, Some (TempFileError e))
  | Ok file_Name =>
    defer (emit (EvFileClose file_Name)) (
      writeErr <- writeConfig file_Name k3sconfig true ;;
      match writeErr with
      | Some e => ret (None, Some e)
      | None =>
        let appendKubeConfigENV :=
          "KUBECONFIG=" +:+ localKubeconfigPath +:+ ":" +:+ file_Name in
        out <- kubectl appendKubeConfigENV ;;
        match out with
        | Err e => ret (None, Some (MergeToolError e))
        | Ok data =>
          err <- Remove file_Name ;;
          match err with
          | Some e => ret (None, Some (TempCleanupError file_Name e))
          | None => ret (Some data, None)
          end
        end
      end)
  end.

(** *** [obtainKubeconfig] *)

Definition obtainKubeconfig (operator : target)
    (getConfigcommand ip context localKubeconfig : string) (merge : bool)
  : M (option error) :=
  r <- Execute operator getConfigcommand ;;
  match r with
  | Err e => ret (Some (ExecutionError e))
  | Ok res =>
    let absPath := filepath_Abs env localKubeconfig in
    let kubeconfig := rewriteKubeconfig (StdOut res) (b ip) (b context) in
    if merge then
      m <- mergeConfigs absPath kubeconfig ;;
      match snd m with
      | Some e => ret (Some e)
      | None => writeConfig absPath (from_option id [] (fst m)) false
      end
    else writeConfig absPath kubeconfig false
  end.

(** *** [expandPath] *)

Definition expandPath (path : string) : string :=
  match homedir_Expand env path with
  | Ok res => res
  | Err _ => ""
  end.

(** *** [sshAgent] *)

Definition sshAgent (publicKeyPath : string)
  : M (option AuthMethod * closeFunc) :=
  d <- Dial (SSH_AUTH_SOCK env) ;;
  match d with
  | Ok sshAgentConn =>
    l <- AgentList sshAgentConn ;;
    let keys := match l with Ok ks => ks | Err _ => [] end in
    if (length keys =? 0)%nat then ret (None, connClose sshAgentConn) else
    r <- ReadFile publicKeyPath ;;
    match r with
    | Err _ => ret (None, connClose sshAgentConn)
    | Ok pubkey =>
      match ssh_ParseAuthorizedKey env pubkey with
      | Err _ => ret (None, connClose sshAgentConn)
      | Ok authkey =>
        let parsedkey := Marshal authkey in
        if existsb (fun key => bytes_Equal (Blob key) parsedkey) keys
        then ret (Some (PublicKeysCallback sshAgentConn), connClose sshAgentConn)
        else ret (None, noopCloseFunc)
      end
    end
  | Err _ => ret (None, noopCloseFunc)
  end.

(** *** [loadAuthMethod] *)

Definition loadAuthMethod (privateKeyPath : string)
  : M (option AuthMethod * closeFunc * option error) :=
  if String.eqb privateKeyPath "" then
    d <- Dial (SSH_AUTH_SOCK env) ;;
    match d with
    | Err e => ret (None, noopCloseFunc, Some (AgentUnreachable e))
    | Ok sshAgent => ret (Some (PublicKeysCallback sshAgent), connClose sshAgent, None)
    end
  else
    r <- ReadFile privateKeyPath ;;
    match r with
    | Err e => ret (None, noopCloseFunc, Some (KeyReadError privateKeyPath e))
    | Ok key =>
      match ssh_ParsePrivateKey env key with
      | Parsed signer => ret (Some (PublicKeys signer), noopCloseFunc, None)
      | ParseFailed e => ret (None, noopCloseFunc, Some (KeyParseError e))
      | PassphraseMissing =>
        a <- sshAgent (privateKeyPath +:+ ".pub") ;;
        let (agent, close) := a in
        match agent with
        | Some agent => ret (Some agent, close, None)
        | None =>
          defer (call close) (
            pw <- ReadPassword privateKeyPath ;;
            let bytePassword := fst pw in
            match ssh_ParsePrivateKeyWithPassphrase env key bytePassword with
            | Err e => ret (None, noopCloseFunc, Some (PassphraseParseError e))
            | Ok signer => ret (Some (PublicKeys signer), noopCloseFunc, None)
            end)
        end
      end
    end.

(** *** [makeInstallExec] *)

Definition makeInstallExec (cluster : bool) (ip tlsSAN : string)
    (options : k3sExecOptions) : string :=
  let extraArgs : list string := [] in
  let extraArgs :=
    if (0 <? String.length (Datastore options))%nat
    then extraArgs ++ ["--datastore-endpoint " +:+ Datastore options]
    else extraArgs in
  let extraArgs :=
    if FlannelIPSec options
    then extraArgs ++ ["--flannel-backend ipsec"] else extraArgs in
  let extraArgs :=
    if NoExtras options
    then (extraArgs ++ ["--no-deploy servicelb"]) ++ ["--no-deploy traefik"]
    else extraArgs in
  let extraArgs := extraArgs ++ [ExtraArgs options] in
  let extraArgsCmdline :=
    fold_left (fun acc a => acc +:+ a +:+ " ") extraArgs "" in
  let installExec := "INSTALL_K3S_EXEC='server" in
  let installExec :=
    if cluster then installExec +:+ " --cluster-init" else installExec in
  let san := if (0 <? String.length tlsSAN)%nat then tlsSAN else ip in
  let installExec := installExec +:+ " --tls-san " +:+ san in
  let trimmed := strings_TrimSpace env extraArgsCmdline in
  let installExec :=
    if (0 <? String.length trimmed)%nat
    then installExec +:+ " " +:+ trimmed else installExec in
  installExec +:+ "'".

(** *** The [RunE] closure of [MakeInstall] *)

Definition RunE (command : Flags) : M (option error) :=
  let localKubeconfig := flag_local_path command in
  let skipInstall := flag_skip_install command in
  let tlsSAN := flag_tls_san command in
  let useSudo := flag_sudo command in
  let sudoPrefix := if useSudo then "sudo " else "" in
  let k3sVersion := flag_k3s_version command in
  let k3sExtraArgs := flag_k3s_extra_args command in
  let k3sChannel := flag_k3s_channel command in
  let k3sNoExtras := flag_no_extras command in
  let flannelIPSec := flag_ipsec command in
  let local := flag_local command in
  let ip := flag_ip command in
  let cluster := flag_cluster command in
  let datastore := flag_datastore command in
  let merge := flag_merge command in
  let context := flag_context command in
  if (0 <? String.length datastore)%nat
     && Contains (b datastore) (b "ssl-mode=REQUIRED")
  then ret (Some DatastoreSSLMode) else
  if (0 <? String.length datastore)%nat
     && (Contains (b datastore) (b "mysql")
         && negb (Contains (b datastore) (b "tcp")))
  then ret (Some DatastoreMySQLHost) else
  let installk3sExec :=
    makeInstallExec cluster ip tlsSAN
      {| Datastore := datastore; FlannelIPSec := flannelIPSec;
         NoExtras := k3sNoExtras; ExtraArgs := k3sExtraArgs |} in
  if (String.length k3sVersion =? 0)%nat && (String.length k3sChannel =? 0)%nat
  then ret (Some NoVersionOrChannel) else
  let installStr := createVersionStr env k3sVersion k3sChannel in
  let installK3scommand :=
    getScript env +:+ " | " +:+ installk3sExec +:+ " " +:+ installStr
      +:+ " sh -" +:+ newline in
  let getConfigcommand :=
    sudoPrefix +:+ "cat /etc/rancher/k3s/k3s.yaml" +:+ newline in
  if local then
    r <- Execute Local installK3scommand ;;
    match r with
    | Err e => ret (Some (Passed e))
    | Ok res =>
      obtainKubeconfig Local getConfigcommand ip context localKubeconfig merge
    end
  else
    let port := flag_ssh_port command in
    let user := flag_user command in
    let sshKey := flag_ssh_key command in
    let sshKeyPath := expandPath sshKey in
    a <- loadAuthMethod sshKeyPath ;;
    let '(authMethod, closeSSHAgent, err) := a in
    match err with
    | Some e => ret (Some e)
    | None =>
      defer (call closeSSHAgent) (
        let address := ip +:+ ":" +:+ Itoa port in
        c <- NewSSHOperator address user authMethod ;;
        match c with
        | Some e => ret (Some (ConnectError address e))
        | None =>
          defer (emit (EvOperatorClose address)) (
            installed <-
              (if negb skipInstall then
                 r <- Execute (Remote address) installK3scommand ;;
                 match r with
                 | Err e => ret (Some (ExecutionError e))
                 | Ok res => ret None
                 end
               else ret None) ;;
            match installed with
            | Some e => ret (Some e)
            | None =>
              obtainKubeconfig (Remote address) getConfigcommand ip context
                localKubeconfig merge
            end)
        end)
    end.

End Program.

(** ** Describing what [rewriteKubeconfig] does to a document

    A document is cut into pieces: a byte that is kept, or an occurrence
    of one of the three tokens that is swapped for its replacement. *)

Inductive piece : Type :=
| Keep (c : byte)
| Swap (tok : bytes).

(** The value written for a token: [context] (["default"] when empty) for
    ["default"], [ip] for the two others. *)
Definition replacement (ip context tok : bytes) : bytes :=
  if bytes_Equal tok tok_default then effective_context context else ip.

Definition source (p : piece) : bytes :=
  match p with
  | Keep c => [c]
  | Swap tok => tok
  end.

Definition written (ip context : bytes) (p : piece) : bytes :=
  match p with
  | Keep c => [c]
  | Swap tok => replacement ip context tok
  end.

Definition is_token (tok : bytes) : bool :=
  existsb (bytes_Equal tok) tokens.

Definition starts_token (s : bytes) : bool :=
  existsb (HasPrefix s) tokens.

(** A cut is the one of a left-to-right pass when every swapped piece is
    a token and no kept byte is the first byte of a token occurrence in
    what is left of the document. *)
Fixpoint left_to_right (ps : list piece) : bool :=
  match ps with
  | [] => true
  | Keep c :: ps' =>
      negb (starts_token (c :: concat (map source ps'))) && left_to_right ps'
  | Swap tok :: ps' => is_token tok && left_to_right ps'
  end.

(** The non-empty suffixes of a byte string. *)
Fixpoint tails (s : bytes) : list bytes :=
  match s with
  | [] => []
  | c :: s' => (c :: s') :: tails s'
  end.

(** One of two byte strings is a prefix of the other. *)
Definition clash (x y : bytes) : bool := HasPrefix x y || HasPrefix y x.

(** A replacement value and a token are apart when the value, put next to
    any text, cannot take part in an occurrence of the token: no end of
    the token is a beginning of the value or has the value as its
    beginning, and no end of the value is a beginning of the token or has
    the token as its beginning. *)
Definition apart (value tok : bytes) : bool :=
  forallb (fun p => negb (clash value p)) (tails tok)
  && forallb (fun q => negb (clash q tok)) (tails value).

(** A replacement value is safe when it is not empty and apart from the
    three tokens. *)
Definition safe (value : bytes) : bool :=
  match value with
  | [] => false
  | _ => forallb (apart value) tokens
  end.

(** ** Reading a run *)

(** The calls made on the way from world [w] to world [w']. *)
Definition since (w w' : World) : list Event :=
  drop (length (trace w)) (trace w').

Definition is_ReadPassword (e : Event) : bool :=
  match e with EvReadPassword _ => true | _ => false end.

Definition is_SSHDial (e : Event) : bool :=
  match e with EvSSHDial _ _ _ => true | _ => false end.

(** How often the passphrase was asked for. *)
Definition prompts (tr : list Event) : nat :=
  length (List.filter is_ReadPassword tr).

(** The agent holds the key of a public-key file: the socket accepts,
    the agent lists identities, the file can be read and parsed, and the
    marshalled key is, byte for byte, the blob of one of the identities. *)
Definition agent_holds_key (env : Env) (fs : gmap string bytes)
    (publicKeyPath : string) : Prop :=
  net_Dial env (SSH_AUTH_SOCK env) = None /\
  exists keys pubkey authkey,
    agent_List env = Ok keys /\
    fs !! publicKeyPath = Some pubkey /\
    ssh_ParseAuthorizedKey env pubkey = Ok authkey /\
    In (Marshal authkey) (map Blob keys).

(** What the passphrase step of [loadAuthMethod] returns: a handle on the
    signer when the key parses with the passphrase typed in, and
    [PassphraseParseError] when it does not. *)
Definition with_passphrase (env : Env) (key : bytes)
  : option AuthMethod * closeFunc * option error :=
  match ssh_ParsePrivateKeyWithPassphrase env key (fst (terminal_ReadPassword env)) with
  | Ok signer => (Some (PublicKeys signer), noopCloseFunc, None)
  | Err e => (None, noopCloseFunc, Some (PassphraseParseError e))
  end.

(** ** A sample machine

    One user, an encrypted key with its public half, a key file that is
    damaged, and a kubeconfig.  The parameters say whether the agent
    socket accepts, which identities the agent holds, what kubectl prints
    and whether removing a file fails. *)

Definition sample_files : gmap string bytes :=
  <["/home/me/.ssh/id_rsa" := b "ENCRYPTED"]>
  (<["/home/me/.ssh/id_rsa.pub" := b "ssh-rsa AAAA"]>
  (<["/home/me/.ssh/damaged" := b "garbage"]>
  (<["/home/me/kubeconfig" := b "clusters: [old]"]> ∅))).

Definition sample_modes : gmap string N :=
  <["/home/me/.ssh/id_rsa" := 0x180%N]>
  (<["/home/me/.ssh/id_rsa.pub" := 0x1a4%N]>
  (<["/home/me/.ssh/damaged" := 0x180%N]>
  (<["/home/me/kubeconfig" := 0x1a4%N]> ∅))).

Definition sample_world : World :=
  {| files := sample_files; modes := sample_modes;
     dialed := 0; open_conns := []; trace := [] |}.

Definition sample_env (dial : option oserror) (keys : list Key)
    (merged : result bytes) (remove : option oserror) : Env :=
  {| Umask := 0x12;
     SSH_AUTH_SOCK := "/run/user/1000/agent.sock";
     net_Dial := fun _ => dial;
     agent_List := Ok keys;
     ssh_ParsePrivateKey := fun key =>
       if bytes_Equal key (b "PLAIN") then Parsed 1
       else if bytes_Equal key (b "ENCRYPTED") then PassphraseMissing
       else ParseFailed "ssh: no key found";
     ssh_ParsePrivateKeyWithPassphrase := fun key passphrase =>
       if bytes_Equal passphrase (b "secret") then Ok 1
       else Err "x509: decryption password incorrect";
     ssh_ParseAuthorizedKey := fun pubkey =>
       if bytes_Equal pubkey (b "ssh-rsa AAAA") then Ok {| Marshal := b "AAAA" |}
       else Err "ssh: no key found";
     terminal_ReadPassword := (b "secret", None);
     homedir_Expand := fun path => Ok path;
     filepath_Abs := fun path => path;
     os_TempDir := "/tmp";
     ioutil_TempFile := fun _ _ _ => Ok "/tmp/k3s-temp-42";
     WriteFile_error := fun _ => None;
     Remove_error := fun _ => remove;
     kubectl_Output := fun _ _ => merged;
     NewSSHOperator_error := fun _ _ _ => None;
     operator_Execute := fun _ _ =>
       Ok {| StdOut := b "server: https://127.0.0.1:6443"; StdErr := [] |};
     strings_TrimSpace := fun s => s;
     getScript := "curl -sLS https://get.k3s.io";
     createVersionStr := fun version channel => "INSTALL_K3S_CHANNEL=" +:+ channel |}.

Definition other_identity : Key :=
  {| Format := "ssh-rsa"; Blob := b "BBBB"; Comment := "someone else" |}.

Definition own_identity : Key :=
  {| Format := "ssh-rsa"; Blob := b "AAAA"; Comment := "me" |}.

Definition sample_flags : Flags :=
  {| flag_ip := "192.168.0.100"; flag_user := "root"; flag_ssh_key := "";
     flag_ssh_port := 22; flag_sudo := true; flag_skip_install := false;
     flag_local_path := "kubeconfig"; flag_context := "default";
     flag_no_extras := false; flag_ipsec := false; flag_merge := false;
     flag_local := false; flag_cluster := false; flag_print_command := false;
     flag_datastore := ""; flag_k3s_version := ""; flag_k3s_extra_args := "";
     flag_k3s_channel := "v1.18"; flag_tls_san := "" |}.

(** ** Sorting the calls of a run *)

(** Calls on files and on the merge tool. *)
Definition is_file_call (e : Event) : bool :=
  match e with
  | EvTempFile _ _ | EvFileClose _ | EvWriteFile _ _ _ | EvKubectl _ | EvRemove _ => true
  | _ => false
  end.

Definition is_FileClose (e : Event) : bool :=
  match e with EvFileClose _ => true | _ => false end.

Definition is_Execute (e : Event) : bool :=
  match e with EvExecute _ _ => true | _ => false end.

(** Calls made to resolve credentials or to hold an SSH connection. *)
Definition is_credential_call (e : Event) : bool :=
  match e with
  | EvDial _ | EvAgentList _ | EvConnClose _ | EvReadFile _ | EvReadPassword _
  | EvSSHDial _ _ _ | EvOperatorClose _ => true
  | _ => false
  end.

(** The calls a [func() error] value makes when it is called. *)
Definition close_calls (f : closeFunc) : list Event :=
  match f with
  | noopCloseFunc => []
  | connClose c => [EvConnClose c]
  end.

(** ** Names for what [RunE] computes from the flags *)

(** The checks [RunE] makes on the flags, in its order. *)
Definition refused (command : Flags) : option error :=
  let datastore := flag_datastore command in
  if (0 <? String.length datastore)%nat
     && Contains (b datastore) (b "ssl-mode=REQUIRED")
  then Some DatastoreSSLMode
  else if (0 <? String.length datastore)%nat
          && (Contains (b datastore) (b "mysql")
              && negb (Contains (b datastore) (b "tcp")))
  then Some DatastoreMySQLHost
  else if (String.length (flag_k3s_version command) =? 0)%nat
          && (String.length (flag_k3s_channel command) =? 0)%nat
  then Some NoVersionOrChannel
  else None.

(** [installK3scommand] *)
Definition installK3scommand (env : Env) (command : Flags) : string :=
  getScript env +:+ " | "
  +:+ makeInstallExec env (flag_cluster command) (flag_ip command) (flag_tls_san command)
        {| Datastore := flag_datastore command; FlannelIPSec := flag_ipsec command;
           NoExtras := flag_no_extras command;
           ExtraArgs := flag_k3s_extra_args command |}
  +:+ " " +:+ createVersionStr env (flag_k3s_version command) (flag_k3s_channel command)
  +:+ " sh -" +:+ newline.

(** [getConfigcommand] *)
Definition getConfigcommand (command : Flags) : string :=
  (if flag_sudo command then "sudo " else "")
  +:+ "cat /etc/rancher/k3s/k3s.yaml" +:+ newline.

(** [address] *)
Definition ssh_address (command : Flags) : string :=
  flag_ip command +:+ ":" +:+ Itoa (flag_ssh_port command).

(** The sample machine with one answer changed. *)

(** What [ioutil.TempFile] answers. *)
Definition with_TempFile (v : string -> string -> gmap string bytes -> result string) (env : Env) : Env :=
  {| Umask := Umask env;
     SSH_AUTH_SOCK := SSH_AUTH_SOCK env;
     net_Dial := net_Dial env;
     agent_List := agent_List env;
     ssh_ParsePrivateKey := ssh_ParsePrivateKey env;
     ssh_ParsePrivateKeyWithPassphrase := ssh_ParsePrivateKeyWithPassphrase env;
     ssh_ParseAuthorizedKey := ssh_ParseAuthorizedKey env;
     terminal_ReadPassword := terminal_ReadPassword env;
     homedir_Expand := homedir_Expand env;
     filepath_Abs := filepath_Abs env;
     os_TempDir := os_TempDir env;
     ioutil_TempFile := v;
     WriteFile_error := WriteFile_error env;
     Remove_error := Remove_error env;
     kubectl_Output := kubectl_Output env;
     NewSSHOperator_error := NewSSHOperator_error env;
     operator_Execute := operator_Execute env;
     strings_TrimSpace := strings_TrimSpace env;
     getScript := getScript env;
     createVersionStr := createVersionStr env |}.


(** What the commands print. *)
Definition with_Execute (v : target -> string -> result CommandRes) (env : Env) : Env :=
  {| Umask := Umask env;
     SSH_AUTH_SOCK := SSH_AUTH_SOCK env;
     net_Dial := net_Dial env;
     agent_List := agent_List env;
     ssh_ParsePrivateKey := ssh_ParsePrivateKey env;
     ssh_ParsePrivateKeyWithPassphrase := ssh_ParsePrivateKeyWithPassphrase env;
     ssh_ParseAuthorizedKey := ssh_ParseAuthorizedKey env;
     terminal_ReadPassword := terminal_ReadPassword env;
     homedir_Expand := homedir_Expand env;
     filepath_Abs := filepath_Abs env;
     os_TempDir := os_TempDir env;
     ioutil_TempFile := ioutil_TempFile env;
     WriteFile_error := WriteFile_error env;
     Remove_error := Remove_error env;
     kubectl_Output := kubectl_Output env;
     NewSSHOperator_error := NewSSHOperator_error env;
     operator_Execute := v;
     strings_TrimSpace := strings_TrimSpace env;
     getScript := getScript env;
     createVersionStr := createVersionStr env |}.

(** Whether the SSH connection can be made. *)
Definition with_NewSSHOperator_error (v : string -> string -> option AuthMethod -> option oserror) (env : Env) : Env :=
  {| Umask := Umask env;
     SSH_AUTH_SOCK := SSH_AUTH_SOCK env;
     net_Dial := net_Dial env;
     agent_List := agent_List env;
     ssh_ParsePrivateKey := ssh_ParsePrivateKey env;
     ssh_ParsePrivateKeyWithPassphrase := ssh_ParsePrivateKeyWithPassphrase env;
     ssh_ParseAuthorizedKey := ssh_ParseAuthorizedKey env;
     terminal_ReadPassword := terminal_ReadPassword env;
     homedir_Expand := homedir_Expand env;
     filepath_Abs := filepath_Abs env;
     os_TempDir := os_TempDir env;
     ioutil_TempFile := ioutil_TempFile env;
     WriteFile_error := WriteFile_error env;
     Remove_error := Remove_error env;
     kubectl_Output := kubectl_Output env;
     NewSSHOperator_error := v;
     operator_Execute := operator_Execute env;
     strings_TrimSpace := strings_TrimSpace env;
     getScript := getScript env;
     createVersionStr := createVersionStr env |}.

(** What [homedir.Expand] answers. *)
Definition with_Expand (v : string -> result string) (env : Env) : Env :=
  {| Umask := Umask env;
     SSH_AUTH_SOCK := SSH_AUTH_SOCK env;
     net_Dial := net_Dial env;
     agent_List := agent_List env;
     ssh_ParsePrivateKey := ssh_ParsePrivateKey env;
     ssh_ParsePrivateKeyWithPassphrase := ssh_ParsePrivateKeyWithPassphrase env;
     ssh_ParseAuthorizedKey := ssh_ParseAuthorizedKey env;
     terminal_ReadPassword := terminal_ReadPassword env;
     homedir_Expand := v;
     filepath_Abs := filepath_Abs env;
     os_TempDir := os_TempDir env;
     ioutil_TempFile := ioutil_TempFile env;
     WriteFile_error := WriteFile_error env;
     Remove_error := Remove_error env;
     kubectl_Output := kubectl_Output env;
     NewSSHOperator_error := NewSSHOperator_error env;
     operator_Execute := operator_Execute env;
     strings_TrimSpace := strings_TrimSpace env;
     getScript := getScript env;
     createVersionStr := createVersionStr env |}.

(** Flags of a plain [k3sup install --ip 192.168.0.100] with the given
    key path and switches. *)
Definition flags_of (ssh_key : string) (local skip_install merge : bool) : Flags :=
  {| flag_ip := "192.168.0.100"; flag_user := "root"; flag_ssh_key := ssh_key;
     flag_ssh_port := 22; flag_sudo := true; flag_skip_install := skip_install;
     flag_local_path := "/home/me/kubeconfig"; flag_context := "default";
     flag_no_extras := false; flag_ipsec := false; flag_merge := merge;
     flag_local := local; flag_cluster := false; flag_print_command := false;
     flag_datastore := ""; flag_k3s_version := ""; flag_k3s_extra_args := "";
     flag_k3s_channel := "v1.18"; flag_tls_san := "" |}.

(** The sample world after [loadAuthMethod] has dialed the agent. *)
Definition agent_world : World :=
  {| files := sample_files; modes := sample_modes; dialed := 1; open_conns := [0];
     trace := [EvDial "/run/user/1000/agent.sock"] |}.


(** * Theorems *)

Example rewrite_scenario_A :
  rewriteKubeconfig (b "server: https://127.0.0.1:6443 name: default localhost")
                    (b "203.0.113.5") (b "prod")
  = b "server: https://203.0.113.5:6443 name: prod 203.0.113.5".
Proof. vm_compute. reflexivity. Qed.

(** An empty context name stands for "default". *)
Lemma rewriteKubeconfig_empty_context kubeconfig ip :
  rewriteKubeconfig kubeconfig ip [] = rewriteKubeconfig kubeconfig ip tok_default.
Proof. reflexivity. Qed.

(** ** Facts about byte strings *)

Lemma byte_eqb_eq x y : byte_eqb x y = true <-> x = y.
Proof.
  unfold byte_eqb. split.
  - apply byte_dec_bl.
  - intros ->. now apply byte_dec_lb.
Qed.

Lemma bytes_Equal_eq x y : bytes_Equal x y = true <-> x = y.
Proof.
  revert y. induction x as [|c x IH]; intros [|d y]; simpl; try easy.
  rewrite andb_true_iff, byte_eqb_eq, IH. split.
  - now intros [-> ->].
  - intros H. now injection H.
Qed.

Lemma HasPrefix_spec s p : HasPrefix s p = true <-> exists rest, s = p ++ rest.
Proof.
  revert s. induction p as [|x p IH]; intros s; simpl.
  - split; [intros _; now exists s | reflexivity].
  - destruct s as [|c s].
    + split; [discriminate | intros [rest H]; discriminate].
    + rewrite andb_true_iff, byte_eqb_eq, IH. split.
      * intros [-> [rest ->]]. now exists rest.
      * intros [rest H]. injection H as -> ->. split; [reflexivity | now exists rest].
Qed.

Lemma HasPrefix_app s p rest : HasPrefix s p = true -> HasPrefix (s ++ rest) p = true.
Proof.
  rewrite !HasPrefix_spec. intros [r ->]. exists (r ++ rest).
  now rewrite <- app_assoc.
Qed.

Lemma Contains_app_l s t rest : Contains s t = true -> Contains (s ++ rest) t = true.
Proof.
  induction s as [|c s IH]; simpl.
  - rewrite orb_false_r. intros H. destruct t; [|discriminate].
    destruct rest; reflexivity.
  - rewrite !orb_true_iff. intros [H|H].
    + left. now apply (HasPrefix_app (c :: s)).
    + right. now apply IH.
Qed.

(** ** Facts about [Replace] *)

Lemma Replace_match r c rest old new :
  lookup_key r (c :: rest) = Some (old, new) ->
  Replace r (c :: rest) = new ++ Replace r (drop (length old - 1) rest).
Proof.
  intros H. simp Replace. rewrite H. reflexivity.
Qed.

Lemma Replace_nomatch r c rest :
  lookup_key r (c :: rest) = None ->
  Replace r (c :: rest) = c :: Replace r rest.
Proof.
  intros H. simp Replace. rewrite H. reflexivity.
Qed.

Lemma Replace_key r old new rest :
  old <> [] ->
  lookup_key r (old ++ rest) = Some (old, new) ->
  Replace r (old ++ rest) = new ++ Replace r rest.
Proof.
  destruct old as [|c old]; [congruence|]. intros _ H.
  change ((c :: old) ++ rest) with (c :: (old ++ rest)) in *.
  rewrite (Replace_match _ _ _ _ _ H).
  replace (length (c :: old) - 1) with (length old) by (simpl; lia).
  now rewrite drop_app_length.
Qed.

Lemma lookup_key_kubeconfigReplacer ip context s :
  lookup_key (kubeconfigReplacer ip context) s =
    if HasPrefix s tok_loopback then Some (tok_loopback, ip)
    else if HasPrefix s tok_localhost then Some (tok_localhost, ip)
    else if HasPrefix s tok_default then Some (tok_default, context)
    else None.
Proof. reflexivity. Qed.

Lemma is_token_In tok : is_token tok = true <-> In tok tokens.
Proof.
  unfold is_token. rewrite existsb_exists. split.
  - intros [t [Ht E]]. apply bytes_Equal_eq in E. now subst.
  - intros H. exists tok. split; [exact H | now apply bytes_Equal_eq].
Qed.

(** At the head of a token the replacer finds that token. *)
Lemma lookup_key_token ip context tok rest :
  In tok tokens ->
  lookup_key (kubeconfigReplacer ip (effective_context context)) (tok ++ rest)
  = Some (tok, replacement ip context tok).
Proof.
  intros [<-|[<-|[<-|[]]]]; reflexivity.
Qed.

(** Where the replacer finds a key, a token starts; where it finds none,
    no token starts. *)
Lemma lookup_key_Some ip context s old new :
  lookup_key (kubeconfigReplacer ip (effective_context context)) s = Some (old, new) ->
  In old tokens /\ new = replacement ip context old /\ exists rest, s = old ++ rest.
Proof.
  rewrite lookup_key_kubeconfigReplacer.
  destruct (HasPrefix s tok_loopback) eqn:H1;
    [| destruct (HasPrefix s tok_localhost) eqn:H2;
       [| destruct (HasPrefix s tok_default) eqn:H3; [|discriminate]]];
    intros [= <- <-]; (split; [|split; [reflexivity|now apply HasPrefix_spec]]);
    unfold tokens; simpl; tauto.
Qed.

Lemma lookup_key_None ip context s :
  lookup_key (kubeconfigReplacer ip context) s = None ->
  starts_token s = false.
Proof.
  rewrite lookup_key_kubeconfigReplacer. unfold starts_token, tokens. cbn [existsb].
  destruct (HasPrefix s tok_loopback); [discriminate|].
  destruct (HasPrefix s tok_localhost); [discriminate|].
  destruct (HasPrefix s tok_default); [discriminate|]. reflexivity.
Qed.

Lemma token_not_nil tok : In tok tokens -> tok <> [].
Proof. intros [<-|[<-|[<-|[]]]]; discriminate. Qed.

Lemma Replace_pieces ip context n :
  forall s, length s <= n ->
  exists ps,
    s = concat (map source ps) /\
    Replace (kubeconfigReplacer ip (effective_context context)) s
      = concat (map (written ip context) ps) /\
    left_to_right ps = true.
Proof.
  induction n as [|n IH]; intros s Hn.
  - destruct s; [|simpl in Hn; lia]. exists []. now simp Replace.
  - destruct s as [|c s]; [exists []; now simp Replace|].
    destruct (lookup_key (kubeconfigReplacer ip (effective_context context)) (c :: s))
      as [[old new]|] eqn:L.
    + destruct (lookup_key_Some _ _ _ _ _ L) as (Htok & -> & rest & E).
      rewrite E in L |- *.
      rewrite (Replace_key _ _ _ _ (token_not_nil _ Htok) L).
      destruct (IH rest) as (ps & Hs & Hr & Hl).
      { apply (f_equal (@length byte)) in E. rewrite length_app in E. simpl in *.
        pose proof (token_not_nil _ Htok). destruct old; [congruence|]. simpl in E. lia. }
      exists (Swap old :: ps). simpl. rewrite <- Hs, <- Hr, Hl.
      repeat split. apply is_token_In in Htok. now rewrite Htok.
    + rewrite (Replace_nomatch _ _ _ L).
      destruct (IH s) as (ps & Hs & Hr & Hl); [simpl in Hn; lia|].
      exists (Keep c :: ps). simpl. rewrite <- Hs, <- Hr, Hl.
      rewrite (lookup_key_None _ _ _ L). repeat split.
Qed.

(** Whatever the replacement values are, [rewriteKubeconfig] cuts the
    document from left to right into token occurrences and kept bytes, no
    kept byte being the start of a token occurrence, and returns it with
    the occurrences replaced and the kept bytes unchanged. *)
Lemma rewriteKubeconfig_cut (kubeconfig ip context : bytes) :
  exists ps : list piece,
    kubeconfig = concat (map source ps) /\
    rewriteKubeconfig kubeconfig ip context = concat (map (written ip context) ps) /\
    left_to_right ps = true.
Proof.
  unfold rewriteKubeconfig. now apply (Replace_pieces ip context (length kubeconfig)).
Qed.

(** ** Replacement values that cannot form a token *)

Lemma HasPrefix_app_inv a x p :
  HasPrefix (a ++ x) p = true -> clash a p = true.
Proof.
  unfold clash. revert p. induction a as [|c a IH]; intros p H.
  - destruct p; [reflexivity|]. apply orb_true_r.
  - destruct p as [|d p]; [reflexivity|]. cbn in H |- *.
    apply andb_true_iff in H as [Hc H]. apply byte_eqb_eq in Hc as ->.
    assert (R : byte_eqb d d = true) by now apply byte_eqb_eq.
    rewrite R. cbn. now apply IH.
Qed.

Lemma tails_tail x p s : In (x :: p) (tails s) -> p = [] \/ In p (tails s).
Proof.
  induction s as [|c s IH]; cbn; [tauto|]. intros [H|H].
  - injection H as -> ->. destruct p; [now left|]. right. right. now left.
  - destruct (IH H) as [->|H']; [now left|]. right. now right.
Qed.

Lemma tails_self s : s <> [] -> In s (tails s).
Proof. destruct s; [congruence|]. intros _. now left. Qed.

Lemma safe_apart value tok :
  safe value = true -> In tok tokens -> value <> [] /\ apart value tok = true.
Proof.
  unfold safe. destruct value as [|c v]; [discriminate|]. intros H Hin.
  split; [discriminate|]. rewrite forallb_forall in H. now apply H.
Qed.

(** A safe value in front of any text does not let a token, or the end of
    a token, start at its first byte. *)
Lemma safe_head value x tok p :
  safe value = true -> In tok tokens -> In p (tails tok) ->
  HasPrefix (value ++ x) p = false.
Proof.
  intros Hs Hin Hp. destruct (safe_apart _ _ Hs Hin) as [_ Ha].
  unfold apart in Ha. apply andb_true_iff in Ha as [Ha _].
  rewrite forallb_forall in Ha. specialize (Ha p Hp).
  destruct (HasPrefix (value ++ x) p) eqn:E; [|reflexivity].
  apply HasPrefix_app_inv in E. now rewrite E in Ha.
Qed.

(** No occurrence of a token starts inside a value whose ends are apart
    from it. *)
Lemma Contains_skip v x tok :
  forallb (fun q => negb (clash q tok)) (tails v) = true ->
  Contains (v ++ x) tok = Contains x tok.
Proof.
  induction v as [|c v IH]; [reflexivity|]. cbn [tails forallb].
  intros H. apply andb_true_iff in H as [Hc H].
  change ((c :: v) ++ x) with (c :: (v ++ x)). cbn [Contains].
  rewrite (IH H).
  destruct (HasPrefix (c :: v ++ x) tok) eqn:E; [|reflexivity].
  apply (HasPrefix_app_inv (c :: v)) in E. now rewrite E in Hc.
Qed.

Section Safe.

Variables ip context : bytes.
Hypothesis safe_ip : safe ip = true.
Hypothesis safe_context : safe (effective_context context) = true.

Let r := kubeconfigReplacer ip (effective_context context).

Lemma safe_replacement tok : In tok tokens -> safe (replacement ip context tok) = true.
Proof. unfold replacement. now destruct (bytes_Equal tok tok_default). Qed.

(** Where the output begins like the end of a token, so does the input. *)
Lemma Replace_prefix n :
  forall s, length s <= n -> forall tok p,
  In tok tokens -> In p (tails tok) ->
  HasPrefix (Replace r s) p = true -> HasPrefix s p = true.
Proof.
  induction n as [|n IH]; intros s Hn tok p Htok Hp H.
  - destruct s; [|cbn in Hn; lia]. now simp Replace in H.
  - destruct s as [|c s]; [now simp Replace in H|].
    destruct (lookup_key r (c :: s)) as [[old new]|] eqn:L.
    + exfalso. destruct (lookup_key_Some _ _ _ _ _ L) as (Hold & -> & rest & E).
      rewrite E in L, H.
      rewrite (Replace_key _ _ _ _ (token_not_nil _ Hold) L) in H.
      now rewrite (safe_head _ _ tok p (safe_replacement _ Hold) Htok Hp) in H.
    + rewrite (Replace_nomatch _ _ _ L) in H.
      destruct p as [|x p]; [reflexivity|]. cbn in H |- *.
      apply andb_true_iff in H as [Hc H]. rewrite Hc. cbn.
      destruct (tails_tail _ _ _ Hp) as [->|Hp']; [now destruct s|].
      apply (IH s) with (tok := tok); [cbn in Hn; lia | assumption ..].
Qed.

(** With safe replacement values no token is left in the output. *)
Lemma Replace_no_token n :
  forall s, length s <= n -> forall tok,
  In tok tokens -> Contains (Replace r s) tok = false.
Proof.
  induction n as [|n IH]; intros s Hn tok Htok.
  - destruct s; [|cbn in Hn; lia]. simp Replace.
    destruct Htok as [<-|[<-|[<-|[]]]]; reflexivity.
  - destruct s as [|c s].
    { simp Replace. destruct Htok as [<-|[<-|[<-|[]]]]; reflexivity. }
    destruct (lookup_key r (c :: s)) as [[old new]|] eqn:L.
    + destruct (lookup_key_Some _ _ _ _ _ L) as (Hold & -> & rest & E).
      rewrite E in L |- *.
      rewrite (Replace_key _ _ _ _ (token_not_nil _ Hold) L).
      destruct (safe_apart _ _ (safe_replacement _ Hold) Htok) as [_ Ha].
      unfold apart in Ha. apply andb_true_iff in Ha as [_ Ha].
      rewrite (Contains_skip _ _ _ Ha). apply IH; [|exact Htok].
      apply (f_equal (@length byte)) in E. rewrite length_app in E.
      pose proof (token_not_nil _ Hold). destruct old; [congruence|].
      cbn in E, Hn. lia.
    + rewrite (Replace_nomatch _ _ _ L). cbn [Contains].
      rewrite (IH s) by (cbn in Hn; lia || exact Htok). rewrite orb_false_r.
      destruct (HasPrefix (c :: Replace r s) tok) eqn:E; [|reflexivity].
      rewrite <- (Replace_nomatch _ _ _ L) in E.
      apply (Replace_prefix (S n) _ Hn tok tok Htok
               (tails_self _ (token_not_nil _ Htok))) in E.
      apply lookup_key_None in L. unfold starts_token in L.
      assert (X : existsb (HasPrefix (c :: s)) tokens = true)
        by (apply existsb_exists; eauto).
      congruence.
Qed.

End Safe.

(** C3 (amended).  For every document, and for every target address and
    context name (after the default for an empty one) that are safe --
    not empty and apart from the three tokens --, [rewriteKubeconfig]
    returns a document in which no occurrence of "127.0.0.1", "localhost"
    or "default" remains; the occurrences met going from left to right
    have been replaced by the target address (the first two tokens) or by
    the context name (the third), and all other bytes are unchanged. *)
Theorem rewriteKubeconfig_replaces_all (kubeconfig ip context : bytes) :
  safe ip = true ->
  safe (effective_context context) = true ->
  (forall tok, In tok tokens ->
     Contains (rewriteKubeconfig kubeconfig ip context) tok = false) /\
  exists ps : list piece,
    kubeconfig = concat (map source ps) /\
    rewriteKubeconfig kubeconfig ip context = concat (map (written ip context) ps) /\
    left_to_right ps = true.
Proof.
  intros Hip Hctx. split.
  - intros tok Htok. unfold rewriteKubeconfig.
    now apply (Replace_no_token ip context Hip Hctx (length kubeconfig)).
  - unfold rewriteKubeconfig. now apply (Replace_pieces ip context (length kubeconfig)).
Qed.

Lemma rewriteKubeconfig_replaces_all_witness :
  let kubeconfig := b "server: https://127.0.0.1:6443 # localhost, name: default" in
  let ip := b "203.0.113.5" in
  let context := b "k3s-home" in
  safe ip = true /\
  safe (effective_context context) = true /\
  (forall tok, In tok tokens ->
     Contains (rewriteKubeconfig kubeconfig ip context) tok = false) /\
  exists ps : list piece,
    kubeconfig = concat (map source ps) /\
    rewriteKubeconfig kubeconfig ip context = concat (map (written ip context) ps) /\
    left_to_right ps = true.
Proof.
  intros kubeconfig ip context.
  assert (h1 : safe ip = true) by (vm_compute; reflexivity).
  assert (h2 : safe (effective_context context) = true) by (vm_compute; reflexivity).
  split; [exact h1|]. split; [exact h2|].
  exact (rewriteKubeconfig_replaces_all kubeconfig ip context h1 h2).
Defined.

(** C3, as stated, fails on the flag defaults [--ip 127.0.0.1] and
    [--context default]: the document holds the three tokens, and the
    output still holds "127.0.0.1" (three times, one of them written for
    "localhost") and "default". *)
Lemma rewriteKubeconfig_defaults_keep_tokens :
  let doc := b "server: https://127.0.0.1:6443 # localhost, name: default" in
  let out := rewriteKubeconfig doc (b "127.0.0.1") (b "default") in
  forallb (Contains doc) tokens = true /\
  out = b "server: https://127.0.0.1:6443 # 127.0.0.1, name: default" /\
  Contains out tok_loopback = true /\
  Contains out tok_default = true.
Proof. vm_compute. repeat split. Qed.

Lemma Contains_app_r s t pre : Contains s t = true -> Contains (pre ++ s) t = true.
Proof.
  intros H. induction pre as [|c pre IH]; [exact H|].
  change ((c :: pre) ++ s) with (c :: (pre ++ s)). cbn [Contains].
  rewrite IH. apply orb_true_r.
Qed.

(** What a piece of the cut has written is found in the output. *)
Lemma Contains_written ip context ps p t :
  In p ps ->
  Contains (written ip context p) t = true ->
  Contains (concat (map (written ip context) ps)) t = true.
Proof.
  induction ps as [|q ps IH]; [intros []|]. cbn [map concat].
  intros [->|H] Hc.
  - now apply Contains_app_l.
  - now apply Contains_app_r, IH.
Qed.

(** C9 (amended).  [rewriteKubeconfig] works in a single pass from left
    to right over the input: the output is the input with every token
    occurrence met in that pass replaced by its replacement value,
    written as it is, and with every other byte kept.  So nothing inside
    a replacement value is replaced again, and the output holds every
    token that a written replacement value holds.  The output holds a
    token only when one of the two replacement values is not safe (is
    empty or not apart from a token, as it is when it holds one). *)
Theorem rewriteKubeconfig_single_pass (kubeconfig ip context : bytes) :
  (exists ps : list piece,
     kubeconfig = concat (map source ps) /\
     left_to_right ps = true /\
     rewriteKubeconfig kubeconfig ip context = concat (map (written ip context) ps) /\
     forall tok t,
       In (Swap tok) ps ->
       Contains (replacement ip context tok) t = true ->
       Contains (rewriteKubeconfig kubeconfig ip context) t = true) /\
  (forall t,
     In t tokens ->
     Contains (rewriteKubeconfig kubeconfig ip context) t = true ->
     safe ip && safe (effective_context context) = false).
Proof.
  split.
  - destruct (Replace_pieces ip context (length kubeconfig) kubeconfig (le_n _))
      as (ps & Hs & Hr & Hl).
    exists ps. unfold rewriteKubeconfig. rewrite Hr. repeat split; try assumption.
    intros tok t Hin Ht. now apply (Contains_written ip context ps (Swap tok)).
  - intros t Ht H.
    destruct (safe ip) eqn:Hip; [|reflexivity].
    destruct (safe (effective_context context)) eqn:Hctx; [|reflexivity].
    unfold rewriteKubeconfig in H.
    now rewrite (Replace_no_token ip context Hip Hctx (length kubeconfig)) in H.
Qed.

(** On a document with a kept byte in front of the token, the value
    written for "localhost" holds "default" and is left as it is. *)
Example rewrite_leaves_written_value :
  rewriteKubeconfig (b " localhost:6443") (b "default.example") (b "prod")
  = b " default.example:6443".
Proof. vm_compute. reflexivity. Qed.

(** C9, as stated, fails: the output can hold a token although neither
    replacement value holds one, when the token forms across the border
    of kept text and a replacement value. *)
Lemma rewriteKubeconfig_token_across_border :
  let ip := b "27.0.0.1" in
  let context := b "prod" in
  let out := rewriteKubeconfig (b "1localhost") ip context in
  existsb (Contains ip) tokens = false /\
  existsb (Contains (effective_context context)) tokens = false /\
  out = b "127.0.0.1" /\
  Contains out tok_loopback = true.
Proof. vm_compute. repeat split. Qed.

(** ** Facts about runs *)

Lemma since_app w w' evs : trace w' = trace w ++ evs -> since w w' = evs.
Proof. unfold since. intros ->. apply drop_app_length. Qed.

Lemma existsb_Blob m keys :
  existsb (fun key => bytes_Equal (Blob key) m) keys = true <-> In m (map Blob keys).
Proof.
  rewrite existsb_exists, in_map_iff. split.
  - intros [k [Hk E]]. apply bytes_Equal_eq in E. eauto.
  - intros [k [E Hk]]. exists k. split; [exact Hk | now apply bytes_Equal_eq].
Qed.

Ltac unfold_calls :=
  unfold Dial, Close, call, AgentList, ReadFile, ReadPassword, TempFile,
         WriteFile, Remove, kubectl, NewSSHOperator, Execute,
         store, defer, bind, ret, emit, get_files, set_files, get_modes, set_modes.

(** Going through the ways a write can end, and through the look-up of
    [os.Remove]. *)
Ltac write_cases env p := destruct (WriteFile_error env p) as [[? [?|]]|]; cbn.

Ltac file_lookup name :=
  destruct (@lookup string bytes (gmap string bytes) _ name _); cbn.

Ltac tidy_trace :=
  cbn [trace files modes dialed open_conns]; rewrite <- ?app_assoc; cbn [app].

(** ** Credential resolution *)

(** What [sshAgent] does: it hands out an agent-backed method, with the
    close of the connection it dialed, exactly when the agent holds the
    key; it never touches the files and never asks for a passphrase. *)
Lemma sshAgent_spec (env : Env) (publicKeyPath : string) (w : World) :
  let '((auth, close), w') := sshAgent env publicKeyPath w in
  files w' = files w /\
  (exists evs, trace w' = trace w ++ evs /\ prompts evs = 0) /\
  ((agent_holds_key env (files w) publicKeyPath /\
    auth = Some (PublicKeysCallback (dialed w)) /\
    close = connClose (dialed w) /\
    trace w' = trace w ++ [EvDial (SSH_AUTH_SOCK env); EvAgentList (dialed w);
                           EvReadFile publicKeyPath])
   \/ (~ agent_holds_key env (files w) publicKeyPath /\ auth = None)).
Proof.
  unfold sshAgent, agent_holds_key. unfold_calls. cbn.
  destruct (net_Dial env (SSH_AUTH_SOCK env)) as [e|] eqn:HD; cbn.
  { split; [reflexivity|]. split; [eexists; split; [reflexivity|reflexivity]|].
    right. split; [|reflexivity]. intros [H _]. discriminate. }
  destruct (agent_List env) as [keys|e] eqn:HL; cbn.
  2:{ split; [reflexivity|]. split.
      - eexists. tidy_trace. split; reflexivity.
      - right. split; [|reflexivity]. intros (_ & ? & ? & ? & H & _). discriminate. }
  destruct keys as [|k keys]; cbn.
  { split; [reflexivity|]. split.
    - eexists. tidy_trace. split; reflexivity.
    - right. split; [|reflexivity].
      intros (_ & ks & ? & ? & H & _ & _ & Hin). injection H as <-. destruct Hin. }
  destruct (files w !! publicKeyPath) as [pubkey|] eqn:HF; cbn.
  2:{ split; [reflexivity|]. split.
      - eexists. tidy_trace. split; reflexivity.
      - right. split; [|reflexivity]. intros (_ & ? & ? & ? & _ & H & _). discriminate. }
  destruct (ssh_ParseAuthorizedKey env pubkey) as [authkey|e] eqn:HP; cbn.
  2:{ split; [reflexivity|]. split.
      - eexists. tidy_trace. split; reflexivity.
      - right. split; [|reflexivity].
        intros (_ & ? & ? & ? & _ & H1 & H2 & _). congruence. }
  destruct (bytes_Equal (Blob k) (Marshal authkey)
            || existsb (fun key => bytes_Equal (Blob key) (Marshal authkey)) keys) eqn:HE; cbn.
  - split; [reflexivity|]. split.
    + eexists. tidy_trace. split; reflexivity.
    + left. split; [|tidy_trace; repeat split].
      split; [reflexivity|]. exists (k :: keys), pubkey, authkey.
      split; [congruence|]. split; [congruence|]. split; [congruence|].
      apply (existsb_Blob _ (k :: keys)). exact HE.
  - split; [reflexivity|]. split.
    + eexists. tidy_trace. split; reflexivity.
    + right. split; [|reflexivity].
      intros (_ & ks & pk & ak & H1 & H2 & H3 & Hin).
      injection H1 as <-. assert (pk = pubkey) as -> by congruence.
      assert (ak = authkey) as -> by congruence.
      apply (existsb_Blob _ (k :: keys)) in Hin. cbn in Hin. congruence.
Qed.

(** The passphrase branch of [loadAuthMethod], in both of its outcomes. *)
Lemma loadAuthMethod_encrypted_key
    (env : Env) (privateKeyPath : string) (key : bytes) (w : World) :
  privateKeyPath <> "" ->
  files w !! privateKeyPath = Some key ->
  ssh_ParsePrivateKey env key = PassphraseMissing ->
  let publicKeyPath := privateKeyPath +:+ ".pub" in
  let '(r, w') := loadAuthMethod env privateKeyPath w in
  (agent_holds_key env (files w) publicKeyPath /\
   r = (Some (PublicKeysCallback (dialed w)), connClose (dialed w), None) /\
   since w w' = [EvReadFile privateKeyPath; EvDial (SSH_AUTH_SOCK env);
                 EvAgentList (dialed w); EvReadFile publicKeyPath])
  \/ (~ agent_holds_key env (files w) publicKeyPath /\
      r = with_passphrase env key /\
      prompts (trace w') = S (prompts (trace w))).
Proof.
  intros Hp Hf He publicKeyPath. unfold loadAuthMethod.
  destruct (String.eqb_spec privateKeyPath ""); [contradiction|].
  unfold bind at 1. unfold ReadFile at 1. unfold_calls. cbn. rewrite Hf, He.
  fold publicKeyPath.
  set (w1 := {| files := files w; modes := modes w; dialed := dialed w;
                open_conns := open_conns w;
                trace := trace w ++ [EvReadFile privateKeyPath] |}).
  pose proof (sshAgent_spec env publicKeyPath w1) as S.
  destruct (sshAgent env publicKeyPath w1) as [[auth close] w2].
  destruct S as (Hfiles & (evs & Htr & Hpr) & [(Hk & -> & -> & Htr')|(Hk & ->)]).
  - cbv beta iota. left. split; [exact Hk|]. split; [reflexivity|].
    apply since_app. rewrite Htr'. subst w1. tidy_trace. reflexivity.
  - cbv beta iota. unfold with_passphrase, prompts in *.
    destruct (ssh_ParsePrivateKeyWithPassphrase env key (fst (terminal_ReadPassword env)));
      destruct close; unfold_calls; cbn; rewrite Htr; subst w1; cbn [trace];
      right; (split; [exact Hk|]); (split; [reflexivity|]);
      rewrite !List.filter_app, !length_app, Hpr; cbn; lia.
Qed.

(** C4.  When the private-key file is read but cannot be parsed, for a
    reason other than a missing passphrase, [loadAuthMethod] fails at
    once with [KeyParseError]; reading the key file is the only call it
    has made: the agent is not dialed, the public-key file is not read,
    no passphrase is asked for. *)
Theorem loadAuthMethod_parse_failure_is_fatal
    (env : Env) (privateKeyPath : string) (key : bytes) (e : oserror) (w : World) :
  privateKeyPath <> "" ->
  files w !! privateKeyPath = Some key ->
  ssh_ParsePrivateKey env key = ParseFailed e ->
  let '(r, w') := loadAuthMethod env privateKeyPath w in
  r = (None, noopCloseFunc, Some (KeyParseError e)) /\
  since w w' = [EvReadFile privateKeyPath].
Proof.
  intros Hp Hf He. unfold loadAuthMethod.
  destruct (String.eqb_spec privateKeyPath ""); [contradiction|].
  unfold_calls. cbn. rewrite Hf, He. split; [reflexivity|].
  now apply since_app.
Qed.

Lemma loadAuthMethod_parse_failure_is_fatal_witness :
  "/home/me/.ssh/damaged" <> "" /\
  files sample_world !! "/home/me/.ssh/damaged" = Some (b "garbage") /\
  ssh_ParsePrivateKey (sample_env None [own_identity] (Ok []) None) (b "garbage")
    = ParseFailed "ssh: no key found" /\
  let '(r, w') := loadAuthMethod (sample_env None [own_identity] (Ok []) None)
                    "/home/me/.ssh/damaged" sample_world in
  r = (None, noopCloseFunc, Some (KeyParseError "ssh: no key found")) /\
  since sample_world w' = [EvReadFile "/home/me/.ssh/damaged"].
Proof.
  assert (h1 : "/home/me/.ssh/damaged" <> "") by discriminate.
  assert (h2 : files sample_world !! "/home/me/.ssh/damaged" = Some (b "garbage"))
    by (vm_compute; reflexivity).
  assert (h3 : ssh_ParsePrivateKey (sample_env None [own_identity] (Ok []) None)
                 (b "garbage") = ParseFailed "ssh: no key found")
    by (vm_compute; reflexivity).
  split; [exact h1|]. split; [exact h2|]. split; [exact h3|].
  exact (loadAuthMethod_parse_failure_is_fatal _ _ _ _ _ h1 h2 h3).
Defined.

(** C5.  When the private key needs a passphrase and the agent does not
    offer the key (it cannot be reached, or none of its identities is the
    key), [loadAuthMethod] asks for the passphrase exactly once; it
    returns a handle on the parsed signer when the key parses with what
    was typed, and [PassphraseParseError] when it does not. *)
Theorem loadAuthMethod_asks_passphrase_once
    (env : Env) (privateKeyPath : string) (key : bytes) (w : World) :
  privateKeyPath <> "" ->
  files w !! privateKeyPath = Some key ->
  ssh_ParsePrivateKey env key = PassphraseMissing ->
  ~ agent_holds_key env (files w) (privateKeyPath +:+ ".pub") ->
  let '(r, w') := loadAuthMethod env privateKeyPath w in
  prompts (trace w') = S (prompts (trace w)) /\
  r = match ssh_ParsePrivateKeyWithPassphrase env key
              (fst (terminal_ReadPassword env)) with
      | Ok signer => (Some (PublicKeys signer), noopCloseFunc, None)
      | Err e => (None, noopCloseFunc, Some (PassphraseParseError e))
      end.
Proof.
  intros Hp Hf He Hk.
  pose proof (loadAuthMethod_encrypted_key env privateKeyPath key w Hp Hf He) as H.
  cbv zeta in H. destruct (loadAuthMethod env privateKeyPath w) as [r w'].
  destruct H as [(Hk' & _)|(_ & Hr & Hn)]; [contradiction|].
  split; [exact Hn | exact Hr].
Qed.

Lemma loadAuthMethod_asks_passphrase_once_witness :
  let env := sample_env (Some "connect: no such file or directory") [] (Ok []) None in
  "/home/me/.ssh/id_rsa" <> "" /\
  files sample_world !! "/home/me/.ssh/id_rsa" = Some (b "ENCRYPTED") /\
  ssh_ParsePrivateKey env (b "ENCRYPTED") = PassphraseMissing /\
  ~ agent_holds_key env (files sample_world) ("/home/me/.ssh/id_rsa" +:+ ".pub") /\
  let '(r, w') := loadAuthMethod env "/home/me/.ssh/id_rsa" sample_world in
  prompts (trace w') = S (prompts (trace sample_world)) /\
  r = match ssh_ParsePrivateKeyWithPassphrase env (b "ENCRYPTED")
              (fst (terminal_ReadPassword env)) with
      | Ok signer => (Some (PublicKeys signer), noopCloseFunc, None)
      | Err e => (None, noopCloseFunc, Some (PassphraseParseError e))
      end.
Proof.
  intros env.
  assert (h1 : "/home/me/.ssh/id_rsa" <> "") by discriminate.
  assert (h2 : files sample_world !! "/home/me/.ssh/id_rsa" = Some (b "ENCRYPTED"))
    by (vm_compute; reflexivity).
  assert (h3 : ssh_ParsePrivateKey env (b "ENCRYPTED") = PassphraseMissing)
    by (vm_compute; reflexivity).
  assert (h4 : ~ agent_holds_key env (files sample_world)
                 ("/home/me/.ssh/id_rsa" +:+ ".pub"))
    by (intros [H _]; discriminate H).
  split; [exact h1|]. split; [exact h2|]. split; [exact h3|]. split; [exact h4|].
  exact (loadAuthMethod_asks_passphrase_once env _ _ _ h1 h2 h3 h4).
Defined.

(** C7.  For a private key that needs a passphrase, [loadAuthMethod]
    tries the agent: it dials it, lists its identities, reads the file
    [privateKeyPath + ".pub"], parses it and compares its marshalled form
    with the blob of each identity.  It returns the agent-backed method,
    with the close of the agent connection, when one blob is equal byte
    for byte, and only then; when the agent does not hold the key, for
    whatever reason, resolution does not fail but goes on to ask for the
    passphrase. *)
Theorem loadAuthMethod_agent_fallback
    (env : Env) (privateKeyPath : string) (key : bytes) (w : World) :
  privateKeyPath <> "" ->
  files w !! privateKeyPath = Some key ->
  ssh_ParsePrivateKey env key = PassphraseMissing ->
  let publicKeyPath := privateKeyPath +:+ ".pub" in
  let '(r, w') := loadAuthMethod env privateKeyPath w in
  (agent_holds_key env (files w) publicKeyPath ->
     r = (Some (PublicKeysCallback (dialed w)), connClose (dialed w), None) /\
     since w w' = [EvReadFile privateKeyPath; EvDial (SSH_AUTH_SOCK env);
                   EvAgentList (dialed w); EvReadFile publicKeyPath]) /\
  (forall c, fst (fst r) = Some (PublicKeysCallback c) ->
     agent_holds_key env (files w) publicKeyPath) /\
  (~ agent_holds_key env (files w) publicKeyPath ->
     r = with_passphrase env key /\
     prompts (trace w') = S (prompts (trace w))).
Proof.
  intros Hp Hf He publicKeyPath.
  pose proof (loadAuthMethod_encrypted_key env privateKeyPath key w Hp Hf He) as H.
  cbv zeta in H. fold publicKeyPath in H.
  destruct (loadAuthMethod env privateKeyPath w) as [r w'].
  destruct H as [(Hk & Hr & Hs)|(Hk & Hr & Hn)].
  - split; [intros _; now split|]. split; [intros _ _; exact Hk|].
    intros Hk'. contradiction.
  - split; [intros Hk'; contradiction|]. split; [|intros _; now split].
    intros c Hc. exfalso. rewrite Hr in Hc. unfold with_passphrase in Hc.
    destruct (ssh_ParsePrivateKeyWithPassphrase env key (fst (terminal_ReadPassword env)));
      discriminate Hc.
Qed.

Lemma loadAuthMethod_agent_fallback_witness :
  let env := sample_env None [other_identity; own_identity] (Ok []) None in
  "/home/me/.ssh/id_rsa" <> "" /\
  files sample_world !! "/home/me/.ssh/id_rsa" = Some (b "ENCRYPTED") /\
  ssh_ParsePrivateKey env (b "ENCRYPTED") = PassphraseMissing /\
  let publicKeyPath := "/home/me/.ssh/id_rsa" +:+ ".pub" in
  let '(r, w') := loadAuthMethod env "/home/me/.ssh/id_rsa" sample_world in
  (agent_holds_key env (files sample_world) publicKeyPath ->
     r = (Some (PublicKeysCallback (dialed sample_world)),
          connClose (dialed sample_world), None) /\
     since sample_world w'
       = [EvReadFile "/home/me/.ssh/id_rsa"; EvDial (SSH_AUTH_SOCK env);
          EvAgentList (dialed sample_world); EvReadFile publicKeyPath]) /\
  (forall c, fst (fst r) = Some (PublicKeysCallback c) ->
     agent_holds_key env (files sample_world) publicKeyPath) /\
  (~ agent_holds_key env (files sample_world) publicKeyPath ->
     r = with_passphrase env (b "ENCRYPTED") /\
     prompts (trace w') = S (prompts (trace sample_world))).
Proof.
  intros env.
  assert (h1 : "/home/me/.ssh/id_rsa" <> "") by discriminate.
  assert (h2 : files sample_world !! "/home/me/.ssh/id_rsa" = Some (b "ENCRYPTED"))
    by (vm_compute; reflexivity).
  assert (h3 : ssh_ParsePrivateKey env (b "ENCRYPTED") = PassphraseMissing)
    by (vm_compute; reflexivity).
  split; [exact h1|]. split; [exact h2|]. split; [exact h3|].
  exact (loadAuthMethod_agent_fallback env _ _ _ h1 h2 h3).
Defined.

(** C10.  In the agent fallback, when the agent was dialed, lists at
    least one identity, and the public-key file was read and parsed, but
    no blob equals the key, [sshAgent] returns a close function that does
    nothing, not the close of the connection it dialed: the deferred
    [close()] of [loadAuthMethod] and the close function handed to its
    caller leave that connection open. *)
Theorem sshAgent_no_match_leaves_connection_open
    (env : Env) (privateKeyPath : string) (key pubkey : bytes)
    (keys : list Key) (authkey : PublicKey) (w : World) :
  privateKeyPath <> "" ->
  files w !! privateKeyPath = Some key ->
  ssh_ParsePrivateKey env key = PassphraseMissing ->
  net_Dial env (SSH_AUTH_SOCK env) = None ->
  agent_List env = Ok keys ->
  keys <> [] ->
  files w !! (privateKeyPath +:+ ".pub") = Some pubkey ->
  ssh_ParseAuthorizedKey env pubkey = Ok authkey ->
  ~ In (Marshal authkey) (map Blob keys) ->
  let publicKeyPath := privateKeyPath +:+ ".pub" in
  let c := dialed w in
  (fst (sshAgent env publicKeyPath w) = (None, noopCloseFunc) /\
   In c (open_conns (snd (sshAgent env publicKeyPath w)))) /\
  let '((auth, close, err), w') := loadAuthMethod env privateKeyPath w in
  close = noopCloseFunc /\
  since w w' = [EvReadFile privateKeyPath; EvDial (SSH_AUTH_SOCK env);
                EvAgentList c; EvReadFile publicKeyPath;
                EvReadPassword privateKeyPath] /\
  In c (open_conns w') /\
  In c (open_conns (snd (call close w'))).
Proof.
  intros Hp Hf He HD HL Hne HF HP Hno publicKeyPath c. subst publicKeyPath c.
  assert (HE : existsb (fun key => bytes_Equal (Blob key) (Marshal authkey)) keys = false).
  { destruct (existsb _ keys) eqn:E; [|reflexivity].
    apply existsb_Blob in E. contradiction. }
  assert (HK : (length keys =? 0)%nat = false).
  { destruct keys; [congruence|reflexivity]. }
  split.
  - unfold sshAgent. unfold_calls. cbn. rewrite HD. cbn. rewrite HL, HK. cbn.
    rewrite HF, HP, HE. cbn. split; [reflexivity|now left].
  - unfold loadAuthMethod, sshAgent.
    destruct (String.eqb_spec privateKeyPath ""); [contradiction|].
    unfold_calls. cbn. rewrite Hf, He, HD. cbn. rewrite HL, HK. cbn.
    rewrite HF, HP, HE. cbn.
    destruct (ssh_ParsePrivateKeyWithPassphrase env key (fst (terminal_ReadPassword env)));
      cbn; (split; [reflexivity|]); (split; [apply since_app; tidy_trace; reflexivity|]);
      split; now left.
Qed.

Lemma sshAgent_no_match_leaves_connection_open_witness :
  let env := sample_env None [other_identity] (Ok []) None in
  "/home/me/.ssh/id_rsa" <> "" /\
  files sample_world !! "/home/me/.ssh/id_rsa" = Some (b "ENCRYPTED") /\
  ssh_ParsePrivateKey env (b "ENCRYPTED") = PassphraseMissing /\
  net_Dial env (SSH_AUTH_SOCK env) = None /\
  agent_List env = Ok [other_identity] /\
  [other_identity] <> [] /\
  files sample_world !! ("/home/me/.ssh/id_rsa" +:+ ".pub") = Some (b "ssh-rsa AAAA") /\
  ssh_ParseAuthorizedKey env (b "ssh-rsa AAAA") = Ok {| Marshal := b "AAAA" |} /\
  ~ In (Marshal {| Marshal := b "AAAA" |}) (map Blob [other_identity]) /\
  let publicKeyPath := "/home/me/.ssh/id_rsa" +:+ ".pub" in
  let c := dialed sample_world in
  (fst (sshAgent env publicKeyPath sample_world) = (None, noopCloseFunc) /\
   In c (open_conns (snd (sshAgent env publicKeyPath sample_world)))) /\
  let '((auth, close, err), w') := loadAuthMethod env "/home/me/.ssh/id_rsa" sample_world in
  close = noopCloseFunc /\
  since sample_world w'
    = [EvReadFile "/home/me/.ssh/id_rsa"; EvDial (SSH_AUTH_SOCK env);
       EvAgentList c; EvReadFile publicKeyPath;
       EvReadPassword "/home/me/.ssh/id_rsa"] /\
  In c (open_conns w') /\
  In c (open_conns (snd (call close w'))).
Proof.
  intros env.
  assert (h1 : "/home/me/.ssh/id_rsa" <> "") by discriminate.
  assert (h2 : files sample_world !! "/home/me/.ssh/id_rsa" = Some (b "ENCRYPTED"))
    by (vm_compute; reflexivity).
  assert (h3 : ssh_ParsePrivateKey env (b "ENCRYPTED") = PassphraseMissing)
    by (vm_compute; reflexivity).
  assert (h4 : net_Dial env (SSH_AUTH_SOCK env) = None) by reflexivity.
  assert (h5 : agent_List env = Ok [other_identity]) by reflexivity.
  assert (h6 : [other_identity] <> []) by discriminate.
  assert (h7 : files sample_world !! ("/home/me/.ssh/id_rsa" +:+ ".pub")
               = Some (b "ssh-rsa AAAA")) by (vm_compute; reflexivity).
  assert (h8 : ssh_ParseAuthorizedKey env (b "ssh-rsa AAAA") = Ok {| Marshal := b "AAAA" |})
    by (vm_compute; reflexivity).
  assert (h9 : ~ In (Marshal {| Marshal := b "AAAA" |}) (map Blob [other_identity])).
  { intros [H|[]]. vm_compute in H. discriminate H. }
  split; [exact h1|]. split; [exact h2|]. split; [exact h3|]. split; [exact h4|].
  split; [exact h5|]. split; [exact h6|]. split; [exact h7|]. split; [exact h8|].
  split; [exact h9|].
  exact (sshAgent_no_match_leaves_connection_open env _ _ _ _ _ _ h1 h2 h3 h4 h5 h6 h7 h8 h9).
Defined.

(** ** The [RunE] closure *)

Lemma since_refl w : since w w = [].
Proof. apply since_app. now rewrite app_nil_r. Qed.

(** C6.  With an empty private-key path and an agent socket that cannot
    be dialed, [loadAuthMethod] fails with [AgentUnreachable] after the
    one attempt to dial the agent; a remote [k3sup install] then either
    has refused its flags before doing anything, or returns that error,
    and in both cases no SSH connection has been dialed. *)
Theorem RunE_agent_unreachable (env : Env) (command : Flags) (e : oserror) (w : World) :
  flag_local command = false ->
  expandPath env (flag_ssh_key command) = "" ->
  net_Dial env (SSH_AUTH_SOCK env) = Some e ->
  (let '(r, w') := loadAuthMethod env "" w in
   r = (None, noopCloseFunc, Some (AgentUnreachable e)) /\
   since w w' = [EvDial (SSH_AUTH_SOCK env)]) /\
  let '(r, w') := RunE env command w in
  existsb is_SSHDial (since w w') = false /\
  ((r = Some (AgentUnreachable e) /\ since w w' = [EvDial (SSH_AUTH_SOCK env)])
   \/ ((r = Some DatastoreSSLMode \/ r = Some DatastoreMySQLHost
        \/ r = Some NoVersionOrChannel) /\ since w w' = [])).
Proof.
  intros Hl Hk HD.
  assert (L : loadAuthMethod env "" w
              = ((None, noopCloseFunc, Some (AgentUnreachable e)),
                 {| files := files w; modes := modes w; dialed := dialed w;
                    open_conns := open_conns w;
                    trace := trace w ++ [EvDial (SSH_AUTH_SOCK env)] |})).
  { unfold loadAuthMethod. unfold_calls. cbn. now rewrite HD. }
  split.
  - rewrite L. split; [reflexivity | now apply since_app].
  - unfold RunE.
    repeat match goal with
           | |- context [if ?c then ret (Some ?err) else _] =>
               destruct c;
               [unfold ret; rewrite since_refl; split; [reflexivity|]; right; tauto|]
           end.
    rewrite Hl, Hk. unfold bind at 1. rewrite L. unfold ret. cbv beta iota zeta.
    erewrite since_app by (cbn [trace]; reflexivity).
    split; [reflexivity|]. left. now split.
Qed.

Lemma RunE_agent_unreachable_witness :
  let env := sample_env (Some "dial unix: missing address") [] (Ok []) None in
  flag_local sample_flags = false /\
  expandPath env (flag_ssh_key sample_flags) = "" /\
  net_Dial env (SSH_AUTH_SOCK env) = Some "dial unix: missing address" /\
  (let '(r, w') := loadAuthMethod env "" sample_world in
   r = (None, noopCloseFunc, Some (AgentUnreachable "dial unix: missing address")) /\
   since sample_world w' = [EvDial (SSH_AUTH_SOCK env)]) /\
  let '(r, w') := RunE env sample_flags sample_world in
  existsb is_SSHDial (since sample_world w') = false /\
  ((r = Some (AgentUnreachable "dial unix: missing address")
    /\ since sample_world w' = [EvDial (SSH_AUTH_SOCK env)])
   \/ ((r = Some DatastoreSSLMode \/ r = Some DatastoreMySQLHost
        \/ r = Some NoVersionOrChannel) /\ since sample_world w' = [])).
Proof.
  intros env.
  assert (h1 : flag_local sample_flags = false) by reflexivity.
  assert (h2 : expandPath env (flag_ssh_key sample_flags) = "") by reflexivity.
  assert (h3 : net_Dial env (SSH_AUTH_SOCK env) = Some "dial unix: missing address")
    by reflexivity.
  split; [exact h1|]. split; [exact h2|]. split; [exact h3|].
  exact (RunE_agent_unreachable env sample_flags _ sample_world h1 h2 h3).
Defined.

(** ** Merging and writing the kubeconfig *)

(** C1 does not hold on the failure paths.  When the temporary file has
    been created and written and the merge tool then fails,
    [mergeConfigs] returns [MergeToolError] without calling [os.Remove]:
    the temporary file is still on disk and holds the new document. *)
Theorem mergeConfigs_tool_failure_leaves_temp_file
    (env : Env) (localKubeconfigPath : string) (k3sconfig : bytes) (w : World)
    (file_Name : string) (e : oserror) :
  ioutil_TempFile env (os_TempDir env) "k3s-temp-*" (files w) = Ok file_Name ->
  filepath_Abs env file_Name = file_Name ->
  WriteFile_error env file_Name = None ->
  kubectl_Output env ("KUBECONFIG=" +:+ localKubeconfigPath +:+ ":" +:+ file_Name)
    (<[file_Name := k3sconfig]> (<[file_Name := []]> (files w))) = Err e ->
  let '(r, w') := mergeConfigs env localKubeconfigPath k3sconfig w in
  r = (None, Some (MergeToolError e)) /\
  files w' !! file_Name = Some k3sconfig /\
  ~ In (EvRemove file_Name) (since w w').
Proof.
  intros HT HA HW HK. unfold mergeConfigs, writeConfig. unfold_calls. cbn.
  rewrite HT. cbn. rewrite HA, HW. cbn. rewrite HK. cbn.
  split; [reflexivity|]. split; [apply lookup_insert_eq|].
  erewrite since_app by (tidy_trace; reflexivity).
  cbn. intros [H|[H|[H|[H|[]]]]]; discriminate H.
Qed.

Lemma mergeConfigs_tool_failure_leaves_temp_file_witness :
  let env := sample_env None [] (Err "exit status 1") None in
  ioutil_TempFile env (os_TempDir env) "k3s-temp-*" (files sample_world)
    = Ok "/tmp/k3s-temp-42" /\
  filepath_Abs env "/tmp/k3s-temp-42" = "/tmp/k3s-temp-42" /\
  WriteFile_error env "/tmp/k3s-temp-42" = None /\
  kubectl_Output env ("KUBECONFIG=" +:+ "/home/me/kubeconfig" +:+ ":" +:+ "/tmp/k3s-temp-42")
    (<["/tmp/k3s-temp-42" := b "clusters: [new]"]>
       (<["/tmp/k3s-temp-42" := []]> (files sample_world))) = Err "exit status 1" /\
  let '(r, w') := mergeConfigs env "/home/me/kubeconfig" (b "clusters: [new]")
                    sample_world in
  r = (None, Some (MergeToolError "exit status 1")) /\
  files w' !! "/tmp/k3s-temp-42" = Some (b "clusters: [new]") /\
  ~ In (EvRemove "/tmp/k3s-temp-42") (since sample_world w').
Proof.
  intros env.
  assert (h1 : ioutil_TempFile env (os_TempDir env) "k3s-temp-*" (files sample_world)
               = Ok "/tmp/k3s-temp-42") by reflexivity.
  assert (h2 : filepath_Abs env "/tmp/k3s-temp-42" = "/tmp/k3s-temp-42") by reflexivity.
  assert (h3 : WriteFile_error env "/tmp/k3s-temp-42" = None) by reflexivity.
  assert (h4 : kubectl_Output env
                 ("KUBECONFIG=" +:+ "/home/me/kubeconfig" +:+ ":" +:+ "/tmp/k3s-temp-42")
                 (<["/tmp/k3s-temp-42" := b "clusters: [new]"]>
                    (<["/tmp/k3s-temp-42" := []]> (files sample_world)))
               = Err "exit status 1") by reflexivity.
  split; [exact h1|]. split; [exact h2|]. split; [exact h3|]. split; [exact h4|].
  exact (mergeConfigs_tool_failure_leaves_temp_file env "/home/me/kubeconfig"
           (b "clusters: [new]") sample_world _ _ h1 h2 h3 h4).
Defined.

(** The path that succeeds does remove the temporary file. *)
Lemma mergeConfigs_success_removes_temp_file
    (env : Env) (localKubeconfigPath : string) (k3sconfig data : bytes) (w : World) :
  let '(r, w') := mergeConfigs env localKubeconfigPath k3sconfig w in
  r = (Some data, None) ->
  exists file_Name,
    ioutil_TempFile env (os_TempDir env) "k3s-temp-*" (files w) = Ok file_Name /\
    files w' !! file_Name = None.
Proof.
  unfold mergeConfigs, writeConfig. unfold_calls. cbn.
  destruct (ioutil_TempFile env (os_TempDir env) "k3s-temp-*" (files w)) as [name|e];
    cbn; [|discriminate].
  write_cases env (filepath_Abs env name); [discriminate|discriminate|].
  destruct (kubectl_Output env _ _); cbn; [|discriminate].
  destruct (Remove_error env name); cbn; [discriminate|].
  file_lookup name; [|discriminate].
  intros _. exists name. split; [reflexivity | apply lookup_delete_eq].
Qed.

(** C2 (amended).  When the merge tool has run and printed the merged
    document but removing the temporary file then fails, [mergeConfigs]
    returns no document: it fails with [TempCleanupError] on the
    temporary file, and the merged bytes are dropped. *)
Theorem mergeConfigs_cleanup_failure_drops_result
    (env : Env) (localKubeconfigPath : string) (k3sconfig data : bytes) (w : World)
    (file_Name : string) (e : oserror) :
  ioutil_TempFile env (os_TempDir env) "k3s-temp-*" (files w) = Ok file_Name ->
  WriteFile_error env (filepath_Abs env file_Name) = None ->
  kubectl_Output env ("KUBECONFIG=" +:+ localKubeconfigPath +:+ ":" +:+ file_Name)
    (<[filepath_Abs env file_Name := k3sconfig]> (<[file_Name := []]> (files w)))
    = Ok data ->
  Remove_error env file_Name = Some e ->
  fst (mergeConfigs env localKubeconfigPath k3sconfig w)
  = (None, Some (TempCleanupError file_Name e)).
Proof.
  intros HT HW HK HR. unfold mergeConfigs, writeConfig. unfold_calls. cbn.
  rewrite HT. cbn. rewrite HW. cbn. rewrite HK. cbn. rewrite HR. reflexivity.
Qed.

Lemma mergeConfigs_cleanup_failure_drops_result_witness :
  let env := sample_env None [] (Ok (b "clusters: [old, new]"))
               (Some "operation not permitted") in
  ioutil_TempFile env (os_TempDir env) "k3s-temp-*" (files sample_world)
    = Ok "/tmp/k3s-temp-42" /\
  WriteFile_error env (filepath_Abs env "/tmp/k3s-temp-42") = None /\
  kubectl_Output env ("KUBECONFIG=" +:+ "/home/me/kubeconfig" +:+ ":" +:+ "/tmp/k3s-temp-42")
    (<[filepath_Abs env "/tmp/k3s-temp-42" := b "clusters: [new]"]>
       (<["/tmp/k3s-temp-42" := []]> (files sample_world)))
    = Ok (b "clusters: [old, new]") /\
  Remove_error env "/tmp/k3s-temp-42" = Some "operation not permitted" /\
  fst (mergeConfigs env "/home/me/kubeconfig" (b "clusters: [new]") sample_world)
  = (None, Some (TempCleanupError "/tmp/k3s-temp-42" "operation not permitted")).
Proof.
  intros env.
  assert (h1 : ioutil_TempFile env (os_TempDir env) "k3s-temp-*" (files sample_world)
               = Ok "/tmp/k3s-temp-42") by reflexivity.
  assert (h2 : WriteFile_error env (filepath_Abs env "/tmp/k3s-temp-42") = None)
    by reflexivity.
  assert (h3 : kubectl_Output env
                 ("KUBECONFIG=" +:+ "/home/me/kubeconfig" +:+ ":" +:+ "/tmp/k3s-temp-42")
                 (<[filepath_Abs env "/tmp/k3s-temp-42" := b "clusters: [new]"]>
                    (<["/tmp/k3s-temp-42" := []]> (files sample_world)))
               = Ok (b "clusters: [old, new]")) by reflexivity.
  assert (h4 : Remove_error env "/tmp/k3s-temp-42" = Some "operation not permitted")
    by reflexivity.
  split; [exact h1|]. split; [exact h2|]. split; [exact h3|]. split; [exact h4|].
  exact (mergeConfigs_cleanup_failure_drops_result env "/home/me/kubeconfig"
           (b "clusters: [new]") _ sample_world _ _ h1 h2 h3 h4).
Defined.

(** C2, as stated, fails: the merge tool printed a merged document and
    removing the temporary file failed, and [mergeConfigs] does not yield
    the merged bytes. *)
Lemma mergeConfigs_cleanup_failure_loses_merged_bytes :
  let env := sample_env None [] (Ok (b "clusters: [old, new]"))
               (Some "operation not permitted") in
  let run := mergeConfigs env "/home/me/kubeconfig" (b "clusters: [new]") sample_world in
  In (EvKubectl "KUBECONFIG=/home/me/kubeconfig:/tmp/k3s-temp-42") (trace (snd run)) /\
  kubectl_Output env "KUBECONFIG=/home/me/kubeconfig:/tmp/k3s-temp-42" (files (snd run))
    = Ok (b "clusters: [old, new]") /\
  Remove_error env "/tmp/k3s-temp-42" = Some "operation not permitted" /\
  fst (fst run) <> Some (b "clusters: [old, new]") /\
  fst run = (None, Some (TempCleanupError "/tmp/k3s-temp-42" "operation not permitted")).
Proof.
  vm_compute. split; [tauto|]. repeat split. discriminate.
Qed.

(** C8 (amended).  Every successful write of the final document, merged
    or not, is one call of [ioutil.WriteFile] on the absolute form of the
    path the caller gave, asking for mode 0600, as the last call of
    [obtainKubeconfig]; afterwards that file holds the document and no
    other file has changed.  Its mode is 0600 less the bits of the umask
    when the call created the file, and the mode the file had before when
    it was there already. *)
Theorem obtainKubeconfig_final_write
    (env : Env) (operator : target)
    (getConfigcommand ip context localKubeconfig : string) (merge : bool)
    (w w1 : World) (res : CommandRes) (kubeconfig : bytes) :
  let absPath := filepath_Abs env localKubeconfig in
  let dest := filepath_Abs env absPath in
  let rewritten := rewriteKubeconfig (StdOut res) (b ip) (b context) in
  let w0 := snd (emit (EvExecute operator getConfigcommand) w) in
  operator_Execute env operator getConfigcommand = Ok res ->
  (if merge
   then mergeConfigs env absPath rewritten w0 = ((Some kubeconfig, None), w1)
   else kubeconfig = rewritten /\ w1 = w0) ->
  WriteFile_error env dest = None ->
  let '(r, w') := obtainKubeconfig env operator getConfigcommand ip context
                    localKubeconfig merge w in
  r = None /\
  trace w' = trace w1 ++ [EvWriteFile dest kubeconfig perm_0600] /\
  files w' = <[dest := kubeconfig]> (files w1) /\
  modes w' = <[dest := match modes w1 !! dest with
                       | Some mode => mode
                       | None => N.ldiff perm_0600 (Umask env)
                       end]> (modes w1).
Proof.
  intros absPath dest rewritten w0 HE Hdoc HW.
  unfold obtainKubeconfig. unfold bind at 1. unfold Execute at 1.
  unfold bind at 1, emit at 1, ret at 1. rewrite HE.
  fold absPath. fold rewritten.
  change (snd (emit (EvExecute operator getConfigcommand) w)) with
    {| files := files w; modes := modes w; dialed := dialed w;
       open_conns := open_conns w;
       trace := trace w ++ [EvExecute operator getConfigcommand] |} in w0.
  fold w0. destruct merge.
  - unfold bind at 1. rewrite Hdoc. cbn [fst snd from_option id].
    unfold writeConfig. fold dest. unfold_calls. cbn. rewrite HW. cbn.
    repeat split.
  - destruct Hdoc as [-> ->].
    unfold writeConfig. fold dest. unfold_calls. cbn. rewrite HW. cbn.
    repeat split.
Qed.

Lemma obtainKubeconfig_final_write_witness :
  let env := sample_env None [] (Ok (b "clusters: [old, new]")) None in
  let res := {| StdOut := b "server: https://127.0.0.1:6443"; StdErr := [] |} in
  let absPath := filepath_Abs env "/home/me/kubeconfig" in
  let dest := filepath_Abs env absPath in
  let rewritten := rewriteKubeconfig (StdOut res) (b "192.168.0.100") (b "prod") in
  let w0 := snd (emit (EvExecute Local "sudo cat /etc/rancher/k3s/k3s.yaml") sample_world) in
  let w1 := snd (mergeConfigs env absPath rewritten w0) in
  operator_Execute env Local "sudo cat /etc/rancher/k3s/k3s.yaml" = Ok res /\
  (if true
   then mergeConfigs env absPath rewritten w0
        = ((Some (b "clusters: [old, new]"), None), w1)
   else b "clusters: [old, new]" = rewritten /\ w1 = w0) /\
  WriteFile_error env dest = None /\
  let '(r, w') := obtainKubeconfig env Local "sudo cat /etc/rancher/k3s/k3s.yaml"
                    "192.168.0.100" "prod" "/home/me/kubeconfig" true sample_world in
  r = None /\
  trace w' = trace w1 ++ [EvWriteFile dest (b "clusters: [old, new]") perm_0600] /\
  files w' = <[dest := b "clusters: [old, new]"]> (files w1) /\
  modes w' = <[dest := match modes w1 !! dest with
                       | Some mode => mode
                       | None => N.ldiff perm_0600 (Umask env)
                       end]> (modes w1).
Proof.
  intros env res absPath dest rewritten w0 w1.
  assert (h1 : operator_Execute env Local "sudo cat /etc/rancher/k3s/k3s.yaml" = Ok res)
    by reflexivity.
  assert (h2 : if true
               then mergeConfigs env absPath rewritten w0
                    = ((Some (b "clusters: [old, new]"), None), w1)
               else b "clusters: [old, new]" = rewritten /\ w1 = w0)
    by (vm_compute; reflexivity).
  assert (h3 : WriteFile_error env dest = None) by reflexivity.
  split; [exact h1|]. split; [exact h2|]. split; [exact h3|].
  exact (obtainKubeconfig_final_write env Local "sudo cat /etc/rancher/k3s/k3s.yaml"
           "192.168.0.100" "prod" "/home/me/kubeconfig" true sample_world w1 res
           (b "clusters: [old, new]") h1 h2 h3).
Defined.

(** C8, as stated, fails when the destination is there already: the
    kubeconfig of the sample machine has mode 0644 and keeps it through
    a successful write, merged or not. *)
Lemma obtainKubeconfig_existing_file_keeps_mode :
  let env := sample_env None [] (Ok (b "clusters: [old, new]")) None in
  let run merge :=
    obtainKubeconfig env Local "sudo cat /etc/rancher/k3s/k3s.yaml"
      "192.168.0.100" "prod" "/home/me/kubeconfig" merge sample_world in
  modes sample_world !! "/home/me/kubeconfig" = Some 0x1a4%N /\
  fst (run false) = None /\
  files (snd (run false)) !! "/home/me/kubeconfig"
    = Some (b "server: https://192.168.0.100:6443") /\
  modes (snd (run false)) !! "/home/me/kubeconfig" = Some 0x1a4%N /\
  fst (run true) = None /\
  files (snd (run true)) !! "/home/me/kubeconfig" = Some (b "clusters: [old, new]") /\
  modes (snd (run true)) !! "/home/me/kubeconfig" = Some 0x1a4%N /\
  Some 0x1a4%N <> Some perm_0600.
Proof. vm_compute. repeat split. discriminate. Qed.

(** On the sample machine the merged document ends up in the kubeconfig;
    the temporary file is gone. *)
Example obtainKubeconfig_merge_run :
  let env := sample_env None [] (Ok (b "clusters: [old, new]")) None in
  let '(r, w') := obtainKubeconfig env Local "sudo cat /etc/rancher/k3s/k3s.yaml"
                    "192.168.0.100" "prod" "/home/me/kubeconfig" true sample_world in
  r = None /\
  files w' !! "/home/me/kubeconfig" = Some (b "clusters: [old, new]") /\
  files w' !! "/tmp/k3s-temp-42" = None /\
  trace w'
  = [EvExecute Local "sudo cat /etc/rancher/k3s/k3s.yaml";
     EvTempFile "/tmp" "k3s-temp-*";
     EvWriteFile "/tmp/k3s-temp-42" (b "server: https://192.168.0.100:6443") perm_0600;
     EvKubectl "KUBECONFIG=/home/me/kubeconfig:/tmp/k3s-temp-42";
     EvRemove "/tmp/k3s-temp-42";
     EvFileClose "/tmp/k3s-temp-42";
     EvWriteFile "/home/me/kubeconfig" (b "clusters: [old, new]") perm_0600].
Proof. vm_compute. repeat split. Qed.

(** ** More about [rewriteKubeconfig] *)

Lemma starts_token_lookup_key ip context s :
  starts_token s = false -> lookup_key (kubeconfigReplacer ip context) s = None.
Proof.
  rewrite lookup_key_kubeconfigReplacer. unfold starts_token, tokens. cbn [existsb].
  destruct (HasPrefix s tok_loopback); [discriminate|].
  destruct (HasPrefix s tok_localhost); [discriminate|].
  destruct (HasPrefix s tok_default); [discriminate|]. reflexivity.
Qed.

Lemma Contains_cons_false c s tok :
  Contains (c :: s) tok = false -> HasPrefix (c :: s) tok = false /\ Contains s tok = false.
Proof. cbn [Contains]. apply orb_false_iff. Qed.

Lemma no_token_no_start s :
  existsb (Contains s) tokens = false -> starts_token s = false.
Proof.
  unfold starts_token, tokens. cbn [existsb]. rewrite !orb_false_iff.
  intros (H1 & H2 & H3 & _).
  destruct s as [|c s].
  - repeat split.
  - apply Contains_cons_false in H1 as [-> _]. apply Contains_cons_false in H2 as [-> _].
    apply Contains_cons_false in H3 as [-> _]. repeat split.
Qed.

Lemma no_token_tail c s :
  existsb (Contains (c :: s)) tokens = false -> existsb (Contains s) tokens = false.
Proof.
  unfold tokens. cbn [existsb]. rewrite !orb_false_iff.
  intros (H1 & H2 & H3 & _).
  apply Contains_cons_false in H1 as [_ ->]. apply Contains_cons_false in H2 as [_ ->].
  apply Contains_cons_false in H3 as [_ ->]. repeat split.
Qed.

Lemma Replace_token_free ip context s :
  existsb (Contains s) tokens = false ->
  Replace (kubeconfigReplacer ip context) s = s.
Proof.
  induction s as [|c s IH]; intros H.
  - now simp Replace.
  - rewrite Replace_nomatch.
    + f_equal. apply IH. now apply no_token_tail in H.
    + apply starts_token_lookup_key. now apply no_token_no_start.
Qed.

(** X1.  A document in which none of the three tokens occurs comes back
    unchanged, whatever the target address and the context name are. *)
Theorem rewriteKubeconfig_without_tokens (kubeconfig ip context : bytes) :
  existsb (Contains kubeconfig) tokens = false ->
  rewriteKubeconfig kubeconfig ip context = kubeconfig.
Proof. unfold rewriteKubeconfig. apply Replace_token_free. Qed.

Lemma rewriteKubeconfig_without_tokens_witness :
  let kubeconfig := b "server: https://10.0.0.7:6443" in
  existsb (Contains kubeconfig) tokens = false /\
  rewriteKubeconfig kubeconfig (b "127.0.0.1") (b "default") = kubeconfig.
Proof.
  intros kubeconfig.
  assert (h : existsb (Contains kubeconfig) tokens = false) by (vm_compute; reflexivity).
  split; [exact h|].
  exact (rewriteKubeconfig_without_tokens kubeconfig (b "127.0.0.1") (b "default") h).
Defined.

(** X2.  With safe replacement values, rewriting a second time changes
    nothing: the first pass leaves no token behind. *)
Theorem rewriteKubeconfig_twice (kubeconfig ip context : bytes) :
  safe ip = true ->
  safe (effective_context context) = true ->
  rewriteKubeconfig (rewriteKubeconfig kubeconfig ip context) ip context
  = rewriteKubeconfig kubeconfig ip context.
Proof.
  intros Hip Hctx. unfold rewriteKubeconfig. apply Replace_token_free.
  unfold tokens. cbn [existsb].
  rewrite !(Replace_no_token ip context Hip Hctx (length kubeconfig) kubeconfig (le_n _));
    [reflexivity | | | ]; unfold tokens; cbn; tauto.
Qed.

Lemma rewriteKubeconfig_twice_witness :
  let kubeconfig := b "server: https://127.0.0.1:6443 # localhost, name: default" in
  let ip := b "203.0.113.5" in
  let context := b "k3s-home" in
  safe ip = true /\
  safe (effective_context context) = true /\
  rewriteKubeconfig (rewriteKubeconfig kubeconfig ip context) ip context
  = rewriteKubeconfig kubeconfig ip context.
Proof.
  intros kubeconfig ip context.
  assert (h1 : safe ip = true) by (vm_compute; reflexivity).
  assert (h2 : safe (effective_context context) = true) by (vm_compute; reflexivity).
  split; [exact h1|]. split; [exact h2|].
  exact (rewriteKubeconfig_twice kubeconfig ip context h1 h2).
Defined.

(** X3.  Text in front of which and inside which no token starts is
    copied as it is, and the rest of the document is rewritten as if it
    stood alone. *)
Theorem rewriteKubeconfig_kept_prefix (pre rest ip context : bytes) :
  forallb (fun q => negb (starts_token (q ++ rest))) (tails pre) = true ->
  rewriteKubeconfig (pre ++ rest) ip context
  = pre ++ rewriteKubeconfig rest ip context.
Proof.
  unfold rewriteKubeconfig. induction pre as [|c pre IH]; [reflexivity|].
  cbn [tails forallb]. intros H. apply andb_true_iff in H as [Hc H].
  change ((c :: pre) ++ rest) with (c :: (pre ++ rest)) in *.
  rewrite Replace_nomatch.
  - cbn [app]. f_equal. now apply IH.
  - apply starts_token_lookup_key. now destruct (starts_token (c :: pre ++ rest)).
Qed.

Lemma rewriteKubeconfig_kept_prefix_witness :
  let pre := b "server: https://" in
  let rest := b "127.0.0.1:6443" in
  forallb (fun q => negb (starts_token (q ++ rest))) (tails pre) = true /\
  rewriteKubeconfig (pre ++ rest) (b "203.0.113.5") (b "prod")
  = pre ++ rewriteKubeconfig rest (b "203.0.113.5") (b "prod").
Proof.
  intros pre rest.
  assert (h : forallb (fun q => negb (starts_token (q ++ rest))) (tails pre) = true)
    by (vm_compute; reflexivity).
  split; [exact h|].
  exact (rewriteKubeconfig_kept_prefix pre rest (b "203.0.113.5") (b "prod") h).
Defined.

(** ** More about writing and merging *)

(** X4.  What [writeConfig] has written can be read back from the
    absolute path, and no other file has changed. *)
Theorem writeConfig_then_ReadFile
    (env : Env) (path : string) (data : bytes) (suppressMessage : bool) (w : World) :
  WriteFile_error env (filepath_Abs env path) = None ->
  let '(r, w') := writeConfig env path data suppressMessage w in
  r = None /\
  fst (ReadFile (filepath_Abs env path) w') = Ok data /\
  forall p, p <> filepath_Abs env path -> files w' !! p = files w !! p.
Proof.
  intros HW. unfold writeConfig. unfold_calls. cbn. rewrite HW. cbn.
  rewrite lookup_insert_eq. repeat split.
  intros p Hp. now apply lookup_insert_ne.
Qed.

Lemma writeConfig_then_ReadFile_witness :
  let env := sample_env None [] (Ok []) None in
  WriteFile_error env (filepath_Abs env "/home/me/kubeconfig") = None /\
  let '(r, w') := writeConfig env "/home/me/kubeconfig" (b "clusters: [new]") false
                    sample_world in
  r = None /\
  fst (ReadFile (filepath_Abs env "/home/me/kubeconfig") w') = Ok (b "clusters: [new]") /\
  forall p, p <> filepath_Abs env "/home/me/kubeconfig" ->
            files w' !! p = files sample_world !! p.
Proof.
  intros env.
  assert (h : WriteFile_error env (filepath_Abs env "/home/me/kubeconfig") = None)
    by reflexivity.
  split; [exact h|].
  exact (writeConfig_then_ReadFile env "/home/me/kubeconfig" (b "clusters: [new]")
           false sample_world h).
Defined.

(** X5.  [mergeConfigs] changes no file but its temporary one: a path
    that is neither the name [ioutil.TempFile] gave nor its absolute form
    holds after the call what it held before, on every return path. *)
Theorem mergeConfigs_other_files_untouched
    (env : Env) (localKubeconfigPath : string) (k3sconfig : bytes) (w : World)
    (p : string) :
  (forall file_Name,
     ioutil_TempFile env (os_TempDir env) "k3s-temp-*" (files w) = Ok file_Name ->
     p <> file_Name /\ p <> filepath_Abs env file_Name) ->
  files (snd (mergeConfigs env localKubeconfigPath k3sconfig w)) !! p = files w !! p.
Proof.
  intros Hp. unfold mergeConfigs, writeConfig. unfold_calls. cbn.
  destruct (ioutil_TempFile env (os_TempDir env) "k3s-temp-*" (files w))
    as [name|e]; cbn; [|reflexivity].
  destruct (Hp name eq_refl) as [H1 H2].
  write_cases env (filepath_Abs env name).
  { now rewrite !lookup_insert_ne. }
  { now rewrite lookup_insert_ne. }
  destruct (kubectl_Output env _ _); cbn.
  2:{ now rewrite !lookup_insert_ne. }
  destruct (Remove_error env name); cbn.
  { now rewrite !lookup_insert_ne. }
  file_lookup name.
  - now rewrite lookup_delete_ne, !lookup_insert_ne.
  - now rewrite !lookup_insert_ne.
Qed.

Lemma mergeConfigs_other_files_untouched_witness :
  let env := sample_env None [] (Err "exit status 1") None in
  (forall file_Name,
     ioutil_TempFile env (os_TempDir env) "k3s-temp-*" (files sample_world) = Ok file_Name ->
     "/home/me/kubeconfig" <> file_Name
     /\ "/home/me/kubeconfig" <> filepath_Abs env file_Name) /\
  files (snd (mergeConfigs env "/home/me/kubeconfig" (b "clusters: [new]") sample_world))
    !! "/home/me/kubeconfig"
  = files sample_world !! "/home/me/kubeconfig".
Proof.
  intros env.
  assert (h : forall file_Name,
             ioutil_TempFile env (os_TempDir env) "k3s-temp-*" (files sample_world)
               = Ok file_Name ->
             "/home/me/kubeconfig" <> file_Name
             /\ "/home/me/kubeconfig" <> filepath_Abs env file_Name).
  { intros file_Name [= <-]. split; discriminate. }
  split; [exact h|].
  exact (mergeConfigs_other_files_untouched env "/home/me/kubeconfig"
           (b "clusters: [new]") sample_world "/home/me/kubeconfig" h).
Defined.

(** X6.  [mergeConfigs] returns either a document or an error, never
    both and never neither. *)
Theorem mergeConfigs_document_or_error
    (env : Env) (localKubeconfigPath : string) (k3sconfig : bytes) (w : World) :
  let r := fst (mergeConfigs env localKubeconfigPath k3sconfig w) in
  (exists data, r = (Some data, None)) \/ (exists e, r = (None, Some e)).
Proof.
  unfold mergeConfigs, writeConfig. unfold_calls. cbn.
  destruct (ioutil_TempFile env (os_TempDir env) "k3s-temp-*" (files w))
    as [name|e]; cbn; [|right; eauto].
  write_cases env (filepath_Abs env name); [right; eauto|right; eauto|].
  destruct (kubectl_Output env _ _); cbn; [|right; eauto].
  destruct (Remove_error env name); cbn; [right; eauto|].
  file_lookup name; [left|right]; eauto.
Qed.



(** X8.  Once the temporary file has been created, [mergeConfigs] closes
    its handle exactly once, as its last call, on every return path. *)
Theorem mergeConfigs_closes_handle
    (env : Env) (localKubeconfigPath : string) (k3sconfig : bytes) (w : World)
    (file_Name : string) :
  ioutil_TempFile env (os_TempDir env) "k3s-temp-*" (files w) = Ok file_Name ->
  exists evs,
    since w (snd (mergeConfigs env localKubeconfigPath k3sconfig w))
      = evs ++ [EvFileClose file_Name] /\
    existsb is_FileClose evs = false.
Proof.
  intros HT. unfold mergeConfigs, writeConfig. unfold_calls. cbn. rewrite HT. cbn.
  write_cases env (filepath_Abs env file_Name).
  { erewrite since_app by (tidy_trace; reflexivity). now eexists [_; _]. }
  { erewrite since_app by (tidy_trace; reflexivity). now eexists [_; _]. }
  destruct (kubectl_Output env _ _); cbn.
  2:{ erewrite since_app by (tidy_trace; reflexivity). now eexists [_; _; _]. }
  destruct (Remove_error env file_Name); cbn.
  { erewrite since_app by (tidy_trace; reflexivity). now eexists [_; _; _; _]. }
  file_lookup file_Name;
    erewrite since_app by (tidy_trace; reflexivity); now eexists [_; _; _; _].
Qed.

Lemma mergeConfigs_closes_handle_witness :
  let env := sample_env None [] (Err "exit status 1") None in
  ioutil_TempFile env (os_TempDir env) "k3s-temp-*" (files sample_world)
    = Ok "/tmp/k3s-temp-42" /\
  exists evs,
    since sample_world
      (snd (mergeConfigs env "/home/me/kubeconfig" (b "clusters: [new]") sample_world))
      = evs ++ [EvFileClose "/tmp/k3s-temp-42"] /\
    existsb is_FileClose evs = false.
Proof.
  intros env.
  assert (h : ioutil_TempFile env (os_TempDir env) "k3s-temp-*" (files sample_world)
              = Ok "/tmp/k3s-temp-42") by reflexivity.
  split; [exact h|].
  exact (mergeConfigs_closes_handle env "/home/me/kubeconfig" (b "clusters: [new]")
           sample_world _ h).
Defined.

(** X9.  When the temporary file cannot be created, [mergeConfigs] fails
    with [TempFileError] and has done nothing else: no file is written,
    the merge tool is not run. *)
Theorem mergeConfigs_no_temp_file
    (env : Env) (localKubeconfigPath : string) (k3sconfig : bytes) (w : World)
    (e : oserror) :
  ioutil_TempFile env (os_TempDir env) "k3s-temp-*" (files w) = Err e ->
  let '(r, w') := mergeConfigs env localKubeconfigPath k3sconfig w in
  r = (None, Some (TempFileError e)) /\
  since w w' = [EvTempFile (os_TempDir env) "k3s-temp-*"] /\
  files w' = files w.
Proof.
  intros HT. unfold mergeConfigs. unfold_calls. cbn. rewrite HT.
  split; [reflexivity|]. split; [now apply since_app | reflexivity].
Qed.



Lemma mergeConfigs_no_temp_file_witness :
  let env := with_TempFile (fun _ _ _ => Err "no space left on device")
               (sample_env None [] (Ok []) None) in
  ioutil_TempFile env (os_TempDir env) "k3s-temp-*" (files sample_world)
    = Err "no space left on device" /\
  let '(r, w') := mergeConfigs env "/home/me/kubeconfig" (b "clusters: [new]")
                    sample_world in
  r = (None, Some (TempFileError "no space left on device")) /\
  since sample_world w' = [EvTempFile (os_TempDir env) "k3s-temp-*"] /\
  files w' = files sample_world.
Proof.
  intros env.
  assert (h : ioutil_TempFile env (os_TempDir env) "k3s-temp-*" (files sample_world)
              = Err "no space left on device") by reflexivity.
  split; [exact h|].
  exact (mergeConfigs_no_temp_file env "/home/me/kubeconfig" (b "clusters: [new]")
           sample_world _ h).
Defined.

(** ** More about [obtainKubeconfig] *)

(** The calls of [obtainKubeconfig]. *)
Lemma obtainKubeconfig_trace
    (env : Env) (operator : target)
    (getConfigcommand ip context localKubeconfig : string) (merge : bool) (w : World) :
  let w' := snd (obtainKubeconfig env operator getConfigcommand ip context
                   localKubeconfig merge w) in
  (exists evs,
     trace w' = trace w ++ EvExecute operator getConfigcommand :: evs /\
     forallb is_file_call evs = true) /\
  dialed w' = dialed w /\
  open_conns w' = open_conns w.
Proof.
  unfold obtainKubeconfig, mergeConfigs, writeConfig. unfold_calls. cbn.
  destruct (operator_Execute env operator getConfigcommand) as [res|e]; cbn.
  2:{ split; [now exists []|now split]. }
  destruct merge; cbn.
  - destruct (ioutil_TempFile env (os_TempDir env) "k3s-temp-*" (files w))
      as [name|e]; cbn.
    2:{ split; [eexists; tidy_trace; split; reflexivity | now split]. }
    write_cases env (filepath_Abs env name).
    { split; [eexists; tidy_trace; split; reflexivity | now split]. }
    { split; [eexists; tidy_trace; split; reflexivity | now split]. }
    destruct (kubectl_Output env _ _) as [data|e]; cbn.
    2:{ split; [eexists; tidy_trace; split; reflexivity | now split]. }
    destruct (Remove_error env name); cbn.
    { split; [eexists; tidy_trace; split; reflexivity | now split]. }
    file_lookup name.
    2:{ split; [eexists; tidy_trace; split; reflexivity | now split]. }
    write_cases env (filepath_Abs env (filepath_Abs env localKubeconfig));
      (split; [eexists; tidy_trace; split; reflexivity | now split]).
  - write_cases env (filepath_Abs env (filepath_Abs env localKubeconfig));
      (split; [eexists; tidy_trace; split; reflexivity | now split]).
Qed.

(** X11.  [obtainKubeconfig] executes one command, the one it was given,
    as its first call; every later call is a call on files or on the
    merge tool, and the agent connections are left as they were. *)
Theorem obtainKubeconfig_calls
    (env : Env) (operator : target)
    (getConfigcommand ip context localKubeconfig : string) (merge : bool) (w : World) :
  let w' := snd (obtainKubeconfig env operator getConfigcommand ip context
                   localKubeconfig merge w) in
  (exists evs,
     trace w' = trace w ++ EvExecute operator getConfigcommand :: evs /\
     forallb is_file_call evs = true) /\
  dialed w' = dialed w /\
  open_conns w' = open_conns w.
Proof. apply obtainKubeconfig_trace. Qed.

(** X12.  When the command fails, [obtainKubeconfig] returns
    [ExecutionError] and has written nothing: the command is its only
    call and the files are as before. *)
Theorem obtainKubeconfig_command_failure
    (env : Env) (operator : target)
    (getConfigcommand ip context localKubeconfig : string) (merge : bool) (w : World)
    (e : oserror) :
  operator_Execute env operator getConfigcommand = Err e ->
  let '(r, w') := obtainKubeconfig env operator getConfigcommand ip context
                    localKubeconfig merge w in
  r = Some (ExecutionError e) /\
  since w w' = [EvExecute operator getConfigcommand] /\
  files w' = files w.
Proof.
  intros HE. unfold obtainKubeconfig. unfold_calls. cbn. rewrite HE. cbn.
  split; [reflexivity|]. split; [now apply since_app | reflexivity].
Qed.

(** X13.  Without merging, a successful [obtainKubeconfig] leaves at the
    destination the standard output of the command, rewritten for the
    given address and context, and changes no other file. *)
Theorem obtainKubeconfig_writes_rewritten_output
    (env : Env) (operator : target)
    (getConfigcommand ip context localKubeconfig : string) (w : World)
    (res : CommandRes) :
  operator_Execute env operator getConfigcommand = Ok res ->
  WriteFile_error env (filepath_Abs env (filepath_Abs env localKubeconfig)) = None ->
  let '(r, w') := obtainKubeconfig env operator getConfigcommand ip context
                    localKubeconfig false w in
  r = None /\
  files w' = <[filepath_Abs env (filepath_Abs env localKubeconfig)
                 := rewriteKubeconfig (StdOut res) (b ip) (b context)]> (files w).
Proof.
  intros HE HW. unfold obtainKubeconfig, writeConfig. unfold_calls. cbn.
  rewrite HE. cbn. rewrite HW. cbn. split; reflexivity.
Qed.

Lemma obtainKubeconfig_writes_rewritten_output_witness :
  let env := sample_env None [] (Ok []) None in
  let res := {| StdOut := b "server: https://127.0.0.1:6443"; StdErr := [] |} in
  operator_Execute env Local "sudo cat /etc/rancher/k3s/k3s.yaml" = Ok res /\
  WriteFile_error env (filepath_Abs env (filepath_Abs env "/home/me/kubeconfig")) = None /\
  let '(r, w') := obtainKubeconfig env Local "sudo cat /etc/rancher/k3s/k3s.yaml"
                    "192.168.0.100" "prod" "/home/me/kubeconfig" false sample_world in
  r = None /\
  files w' = <[filepath_Abs env (filepath_Abs env "/home/me/kubeconfig")
                 := rewriteKubeconfig (StdOut res) (b "192.168.0.100") (b "prod")]>
               (files sample_world).
Proof.
  intros env res.
  assert (h1 : operator_Execute env Local "sudo cat /etc/rancher/k3s/k3s.yaml" = Ok res)
    by reflexivity.
  assert (h2 : WriteFile_error env
                 (filepath_Abs env (filepath_Abs env "/home/me/kubeconfig")) = None)
    by reflexivity.
  split; [exact h1|]. split; [exact h2|].
  exact (obtainKubeconfig_writes_rewritten_output env Local
           "sudo cat /etc/rancher/k3s/k3s.yaml" "192.168.0.100" "prod"
           "/home/me/kubeconfig" sample_world res h1 h2).
Defined.



(** X15.  When merging fails, the destination is not written: as long
    as the temporary file is another file than the destination and a
    write of the destination would succeed, an [obtainKubeconfig] that
    returns an error leaves the destination as it was. *)
Theorem obtainKubeconfig_failed_merge_keeps_destination
    (env : Env) (operator : target)
    (getConfigcommand ip context localKubeconfig : string) (w : World) :
  let dest := filepath_Abs env (filepath_Abs env localKubeconfig) in
  (forall file_Name,
     ioutil_TempFile env (os_TempDir env) "k3s-temp-*" (files w) = Ok file_Name ->
     dest <> file_Name /\ dest <> filepath_Abs env file_Name) ->
  WriteFile_error env dest = None ->
  let '(r, w') := obtainKubeconfig env operator getConfigcommand ip context
                    localKubeconfig true w in
  r <> None ->
  files w' !! dest = files w !! dest /\
  forallb (fun e => match e with
                    | EvWriteFile p _ _ => negb (String.eqb p dest)
                    | _ => true
                    end) (since w w') = true.
Proof.
  intros dest Hp HW. subst dest.
  unfold obtainKubeconfig, mergeConfigs, writeConfig. unfold_calls. cbn.
  destruct (operator_Execute env operator getConfigcommand) as [res|e]; cbn.
  2:{ intros _. erewrite since_app by (tidy_trace; reflexivity). now split. }
  destruct (ioutil_TempFile env (os_TempDir env) "k3s-temp-*" (files w))
    as [name|e]; cbn.
  2:{ intros _. erewrite since_app by (tidy_trace; reflexivity). now split. }
  destruct (Hp name eq_refl) as [H1 H2].
  assert (N : negb (String.eqb (filepath_Abs env name)
                      (filepath_Abs env (filepath_Abs env localKubeconfig))) = true).
  { destruct (String.eqb_spec (filepath_Abs env name)
                (filepath_Abs env (filepath_Abs env localKubeconfig))); [|reflexivity].
    congruence. }
  write_cases env (filepath_Abs env name).
  { intros _. erewrite since_app by (tidy_trace; reflexivity).
    split; [now rewrite !lookup_insert_ne | cbn; now rewrite N]. }
  { intros _. erewrite since_app by (tidy_trace; reflexivity).
    split; [now rewrite lookup_insert_ne | cbn; now rewrite N]. }
  destruct (kubectl_Output env _ _) as [data|e]; cbn.
  2:{ intros _. erewrite since_app by (tidy_trace; reflexivity).
      split; [now rewrite !lookup_insert_ne | cbn; now rewrite N]. }
  destruct (Remove_error env name); cbn.
  { intros _. erewrite since_app by (tidy_trace; reflexivity).
    split; [now rewrite !lookup_insert_ne | cbn; now rewrite N]. }
  file_lookup name.
  2:{ intros _. erewrite since_app by (tidy_trace; reflexivity).
      split; [now rewrite !lookup_insert_ne | cbn; now rewrite N]. }
  rewrite HW. cbn. intros H. now contradiction H.
Qed.

Lemma obtainKubeconfig_failed_merge_keeps_destination_witness :
  let env := sample_env None [] (Err "exit status 1") None in
  let dest := filepath_Abs env (filepath_Abs env "/home/me/kubeconfig") in
  (forall file_Name,
     ioutil_TempFile env (os_TempDir env) "k3s-temp-*" (files sample_world) = Ok file_Name ->
     dest <> file_Name /\ dest <> filepath_Abs env file_Name) /\
  WriteFile_error env dest = None /\
  let '(r, w') := obtainKubeconfig env Local "sudo cat /etc/rancher/k3s/k3s.yaml"
                    "192.168.0.100" "prod" "/home/me/kubeconfig" true sample_world in
  r <> None ->
  files w' !! dest = files sample_world !! dest /\
  forallb (fun e => match e with
                    | EvWriteFile p _ _ => negb (String.eqb p dest)
                    | _ => true
                    end) (since sample_world w') = true.
Proof.
  intros env dest.
  assert (h1 : forall file_Name,
             ioutil_TempFile env (os_TempDir env) "k3s-temp-*" (files sample_world)
               = Ok file_Name ->
             dest <> file_Name /\ dest <> filepath_Abs env file_Name).
  { intros file_Name [= <-]. split; discriminate. }
  assert (h2 : WriteFile_error env dest = None) by reflexivity.
  split; [exact h1|]. split; [exact h2|].
  exact (obtainKubeconfig_failed_merge_keeps_destination env Local
           "sudo cat /etc/rancher/k3s/k3s.yaml" "192.168.0.100" "prod"
           "/home/me/kubeconfig" sample_world h1 h2).
Defined.

Lemma obtainKubeconfig_command_failure_witness :
  let env := with_Execute (fun _ _ => Err "Process exited with status 1")
               (sample_env None [] (Ok []) None) in
  operator_Execute env (Remote "192.168.0.100:22") "sudo cat /etc/rancher/k3s/k3s.yaml"
    = Err "Process exited with status 1" /\
  let '(r, w') := obtainKubeconfig env (Remote "192.168.0.100:22")
                    "sudo cat /etc/rancher/k3s/k3s.yaml" "192.168.0.100" "prod"
                    "/home/me/kubeconfig" true sample_world in
  r = Some (ExecutionError "Process exited with status 1") /\
  since sample_world w'
  = [EvExecute (Remote "192.168.0.100:22") "sudo cat /etc/rancher/k3s/k3s.yaml"] /\
  files w' = files sample_world.
Proof.
  intros env.
  assert (h : operator_Execute env (Remote "192.168.0.100:22")
                "sudo cat /etc/rancher/k3s/k3s.yaml"
              = Err "Process exited with status 1") by reflexivity.
  split; [exact h|].
  exact (obtainKubeconfig_command_failure env (Remote "192.168.0.100:22")
           "sudo cat /etc/rancher/k3s/k3s.yaml" "192.168.0.100" "prod"
           "/home/me/kubeconfig" true sample_world _ h).
Defined.

(** ** More about [loadAuthMethod] *)

(** X16.  When the private-key file cannot be read, [loadAuthMethod]
    fails with [KeyReadError] naming the path; the read is its only
    call. *)
Theorem loadAuthMethod_unreadable_key (env : Env) (privateKeyPath : string) (w : World) :
  privateKeyPath <> "" ->
  files w !! privateKeyPath = None ->
  let '(r, w') := loadAuthMethod env privateKeyPath w in
  (exists cause, r = (None, noopCloseFunc, Some (KeyReadError privateKeyPath cause))) /\
  since w w' = [EvReadFile privateKeyPath].
Proof.
  intros Hp Hf. unfold loadAuthMethod.
  destruct (String.eqb_spec privateKeyPath ""); [contradiction|].
  unfold_calls. cbn. rewrite Hf. split; [eauto | now apply since_app].
Qed.

Lemma loadAuthMethod_unreadable_key_witness :
  let env := sample_env None [own_identity] (Ok []) None in
  "/home/me/.ssh/missing" <> "" /\
  files sample_world !! "/home/me/.ssh/missing" = None /\
  let '(r, w') := loadAuthMethod env "/home/me/.ssh/missing" sample_world in
  (exists cause,
     r = (None, noopCloseFunc, Some (KeyReadError "/home/me/.ssh/missing" cause))) /\
  since sample_world w' = [EvReadFile "/home/me/.ssh/missing"].
Proof.
  intros env.
  assert (h1 : "/home/me/.ssh/missing" <> "") by discriminate.
  assert (h2 : files sample_world !! "/home/me/.ssh/missing" = None)
    by (vm_compute; reflexivity).
  split; [exact h1|]. split; [exact h2|].
  exact (loadAuthMethod_unreadable_key env _ sample_world h1 h2).
Defined.

(** X17.  A private key that parses without a passphrase is used as it
    is: [loadAuthMethod] returns [ssh.PublicKeys] of its signer with a
    close function that does nothing, and neither dials the agent nor
    asks for a passphrase, whether or not an agent could be reached. *)
Theorem loadAuthMethod_plain_key
    (env : Env) (privateKeyPath : string) (key : bytes) (signer : Signer) (w : World) :
  privateKeyPath <> "" ->
  files w !! privateKeyPath = Some key ->
  ssh_ParsePrivateKey env key = Parsed signer ->
  let '(r, w') := loadAuthMethod env privateKeyPath w in
  r = (Some (PublicKeys signer), noopCloseFunc, None) /\
  since w w' = [EvReadFile privateKeyPath] /\
  open_conns w' = open_conns w.
Proof.
  intros Hp Hf He. unfold loadAuthMethod.
  destruct (String.eqb_spec privateKeyPath ""); [contradiction|].
  unfold_calls. cbn. rewrite Hf, He. split; [reflexivity|].
  split; [now apply since_app | reflexivity].
Qed.

Lemma loadAuthMethod_plain_key_witness :
  let env := sample_env None [own_identity] (Ok []) None in
  let w := {| files := <["/home/me/.ssh/id_ed25519" := b "PLAIN"]> sample_files;
              modes := <["/home/me/.ssh/id_ed25519" := 0x180%N]> sample_modes;
              dialed := 0; open_conns := []; trace := [] |} in
  "/home/me/.ssh/id_ed25519" <> "" /\
  files w !! "/home/me/.ssh/id_ed25519" = Some (b "PLAIN") /\
  ssh_ParsePrivateKey env (b "PLAIN") = Parsed 1 /\
  let '(r, w') := loadAuthMethod env "/home/me/.ssh/id_ed25519" w in
  r = (Some (PublicKeys 1), noopCloseFunc, None) /\
  since w w' = [EvReadFile "/home/me/.ssh/id_ed25519"] /\
  open_conns w' = open_conns w.
Proof.
  intros env w.
  assert (h1 : "/home/me/.ssh/id_ed25519" <> "") by discriminate.
  assert (h2 : files w !! "/home/me/.ssh/id_ed25519" = Some (b "PLAIN"))
    by (vm_compute; reflexivity).
  assert (h3 : ssh_ParsePrivateKey env (b "PLAIN") = Parsed 1) by (vm_compute; reflexivity).
  split; [exact h1|]. split; [exact h2|]. split; [exact h3|].
  exact (loadAuthMethod_plain_key env _ _ _ w h1 h2 h3).
Defined.

(** Going through every return of [loadAuthMethod]. *)
Ltac load_cases env path w :=
  unfold loadAuthMethod, sshAgent; unfold_calls; cbn;
  destruct (String.eqb_spec path "") as [Hempty|Hpath]; cbn;
  [ destruct (net_Dial env (SSH_AUTH_SOCK env)) as [?e|] eqn:HD; cbn
  | destruct (files w !! path) as [key|] eqn:Hkey; cbn;
    [ destruct (ssh_ParsePrivateKey env key) as [signer| |?e] eqn:HP; cbn;
      [ | destruct (net_Dial env (SSH_AUTH_SOCK env)) as [?e|] eqn:HD; cbn;
          [ | destruct (agent_List env) as [[|k keys]|?e] eqn:HL; cbn;
              [ | destruct (files w !! (path +:+ ".pub")) as [pubkey|] eqn:Hpub; cbn;
                  [ destruct (ssh_ParseAuthorizedKey env pubkey) as [authkey|?e] eqn:HA;
                    cbn;
                    [ match goal with
                      | |- context [if ?c then _ else _] => destruct c eqn:HE; cbn
                      end
                    | ]
                  | ]
              | ]
          ]
        | ]
    | ]
  ];
  try match goal with
      | |- context [ssh_ParsePrivateKeyWithPassphrase env ?k ?p] =>
          destruct (ssh_ParsePrivateKeyWithPassphrase env k p) eqn:HW; cbn
      end.

(** X18.  [loadAuthMethod] returns either a method and no error, or an
    error, no method and the close function that does nothing: a caller
    that returns on the error without calling the close function, as
    [RunE] does, skips no close of a connection. *)
Theorem loadAuthMethod_method_or_error (env : Env) (privateKeyPath : string) (w : World) :
  let '(auth, close, err) := fst (loadAuthMethod env privateKeyPath w) in
  (exists method, auth = Some method /\ err = None)
  \/ (exists e, auth = None /\ err = Some e /\ close = noopCloseFunc).
Proof.
  load_cases env privateKeyPath w; solve [left; eauto | right; eauto].
Qed.

(** X19.  What [loadAuthMethod] does to the agent connections.  Either
    it hands out the connection it dialed, still open, together with its
    close; or it leaves the open connections as they were; or it has
    dialed a connection that stays open with nobody holding its close,
    which happens only when the agent listed identities, the public key
    was read and parsed, and none of the identities was the key. *)
Theorem loadAuthMethod_connections (env : Env) (privateKeyPath : string) (w : World) :
  ~ In (dialed w) (open_conns w) ->
  let '((auth, close, err), w') := loadAuthMethod env privateKeyPath w in
  (auth = Some (PublicKeysCallback (dialed w)) /\ close = connClose (dialed w) /\
   open_conns w' = dialed w :: open_conns w)
  \/ (close = noopCloseFunc /\ open_conns w' = open_conns w)
  \/ (close = noopCloseFunc /\ open_conns w' = dialed w :: open_conns w /\
      exists keys pubkey authkey,
        agent_List env = Ok keys /\ keys <> [] /\
        files w !! (privateKeyPath +:+ ".pub") = Some pubkey /\
        ssh_ParseAuthorizedKey env pubkey = Ok authkey /\
        ~ In (Marshal authkey) (map Blob keys)).
Proof.
  intros Hfresh.
  assert (R : remove Nat.eq_dec (dialed w) (dialed w :: open_conns w) = open_conns w).
  { rewrite remove_cons. now apply notin_remove. }
  load_cases env privateKeyPath w;
    try solve [left; repeat split
              | right; left; split; [reflexivity | first [reflexivity | exact R]] ].
  all: right; right; split; [reflexivity|]; split; [reflexivity|];
    exists (k :: keys), pubkey, authkey;
    (split; [first [reflexivity | eassumption]|]); (split; [discriminate|]);
    (split; [first [reflexivity | eassumption]|]);
    (split; [first [reflexivity | eassumption]|]);
    intros Hin; apply (existsb_Blob _ (k :: keys)) in Hin; cbn in Hin; congruence.
Qed.

Lemma loadAuthMethod_connections_witness :
  let env := sample_env None [] (Ok []) None in
  ~ In (dialed sample_world) (open_conns sample_world) /\
  let '((auth, close, err), w') := loadAuthMethod env "/home/me/.ssh/id_rsa" sample_world in
  (auth = Some (PublicKeysCallback (dialed sample_world))
   /\ close = connClose (dialed sample_world)
   /\ open_conns w' = dialed sample_world :: open_conns sample_world)
  \/ (close = noopCloseFunc /\ open_conns w' = open_conns sample_world)
  \/ (close = noopCloseFunc
      /\ open_conns w' = dialed sample_world :: open_conns sample_world /\
      exists keys pubkey authkey,
        agent_List env = Ok keys /\ keys <> [] /\
        files sample_world !! ("/home/me/.ssh/id_rsa" +:+ ".pub") = Some pubkey /\
        ssh_ParseAuthorizedKey env pubkey = Ok authkey /\
        ~ In (Marshal authkey) (map Blob keys)).
Proof.
  intros env.
  assert (h : ~ In (dialed sample_world) (open_conns sample_world)) by (intros []).
  split; [exact h|].
  exact (loadAuthMethod_connections env "/home/me/.ssh/id_rsa" sample_world h).
Defined.

(** ** More about [RunE] *)

(** A command whose flags are refused has done nothing. *)
Lemma RunE_refused (env : Env) (command : Flags) (e : error) (w : World) :
  refused command = Some e -> RunE env command w = (Some e, w).
Proof.
  unfold refused, RunE.
  repeat match goal with
         | |- context [if ?c then Some ?err else _] => destruct c
         end; intros [= <-] || discriminate; reflexivity.
Qed.

(** What [RunE] does with [--local] once the flags are accepted. *)
Lemma RunE_local_eq (env : Env) (command : Flags) :
  refused command = None ->
  flag_local command = true ->
  RunE env command
  = (r <- Execute env Local (installK3scommand env command) ;;
     match r with
     | Err e => ret (Some (Passed e))
     | Ok res =>
       obtainKubeconfig env Local (getConfigcommand command) (flag_ip command)
         (flag_context command) (flag_local_path command) (flag_merge command)
     end).
Proof.
  unfold refused, RunE. intros Hr Hl.
  repeat match type of Hr with
         | (if ?c then Some _ else _) = None => destruct c; [discriminate Hr|]
         end.
  rewrite Hl. reflexivity.
Qed.

(** What [RunE] does without [--local] once the flags are accepted. *)
Lemma RunE_remote_eq (env : Env) (command : Flags) :
  refused command = None ->
  flag_local command = false ->
  RunE env command
  = (a <- loadAuthMethod env (expandPath env (flag_ssh_key command)) ;;
     let '(authMethod, closeSSHAgent, err) := a in
     match err with
     | Some e => ret (Some e)
     | None =>
       defer (call closeSSHAgent) (
         c <- NewSSHOperator env (ssh_address command) (flag_user command) authMethod ;;
         match c with
         | Some e => ret (Some (ConnectError (ssh_address command) e))
         | None =>
           defer (emit (EvOperatorClose (ssh_address command))) (
             installed <-
               (if negb (flag_skip_install command) then
                  r <- Execute env (Remote (ssh_address command))
                         (installK3scommand env command) ;;
                  match r with
                  | Err e => ret (Some (ExecutionError e))
                  | Ok res => ret None
                  end
                else ret None) ;;
             match installed with
             | Some e => ret (Some e)
             | None =>
               obtainKubeconfig env (Remote (ssh_address command))
                 (getConfigcommand command) (flag_ip command) (flag_context command)
                 (flag_local_path command) (flag_merge command)
             end)
         end)
     end).
Proof.
  unfold refused, RunE. intros Hr Hl.
  repeat match type of Hr with
         | (if ?c then Some _ else _) = None => destruct c; [discriminate Hr|]
         end.
  rewrite Hl. reflexivity.
Qed.

Lemma call_spec (close : closeFunc) (w : World) :
  let w' := snd (call close w) in
  trace w' = trace w ++ close_calls close /\
  files w' = files w /\ dialed w' = dialed w /\
  open_conns w' = match close with
                  | noopCloseFunc => open_conns w
                  | connClose c => remove Nat.eq_dec c (open_conns w)
                  end.
Proof.
  destruct close; unfold_calls; cbn; [now rewrite app_nil_r|repeat split].
Qed.

Lemma existsb_app_false {A} (f : A -> bool) l1 l2 :
  existsb f l1 = false -> existsb f l2 = false -> existsb f (l1 ++ l2) = false.
Proof. intros H1 H2. now rewrite existsb_app, H1, H2. Qed.

Lemma file_calls_no_credentials evs :
  forallb is_file_call evs = true -> existsb is_credential_call evs = false.
Proof.
  induction evs as [|e evs IH]; [reflexivity|]. cbn. intros H.
  apply andb_true_iff in H as [He H]. rewrite (IH H). now destruct e.
Qed.

Lemma file_calls_no_Execute evs :
  forallb is_file_call evs = true -> existsb is_Execute evs = false.
Proof.
  induction evs as [|e evs IH]; [reflexivity|]. cbn. intros H.
  apply andb_true_iff in H as [He H]. rewrite (IH H). now destruct e.
Qed.

(** X20.  A local install never resolves credentials: it does not dial
    the agent, read a key file, ask for a passphrase or open an SSH
    connection, and it leaves the agent connections as they were. *)
Theorem RunE_local_no_credentials (env : Env) (command : Flags) (w : World) :
  flag_local command = true ->
  let w' := snd (RunE env command w) in
  existsb is_credential_call (since w w') = false /\
  open_conns w' = open_conns w.
Proof.
  intros Hl. destruct (refused command) as [e|] eqn:Hr.
  { rewrite (RunE_refused _ _ _ _ Hr). cbn. now rewrite since_refl. }
  rewrite (RunE_local_eq _ _ Hr Hl). unfold bind at 1. unfold Execute at 1.
  unfold_calls. cbn -[obtainKubeconfig].
  destruct (operator_Execute env Local (installK3scommand env command)) as [res|e];
    cbn -[obtainKubeconfig].
  2:{ erewrite since_app by (tidy_trace; reflexivity). now split. }
  match goal with
  | |- context [obtainKubeconfig env ?o ?c ?i ?x ?l ?m ?w0] =>
      pose proof (obtainKubeconfig_trace env o c i x l m w0) as H;
      destruct (obtainKubeconfig env o c i x l m w0) as [r w1]
  end.
  cbn in H |- *. destruct H as ((evs & Ht & Hf) & _ & Ho).
  split; [|exact Ho].
  erewrite since_app by (rewrite Ht; tidy_trace; reflexivity).
  cbn. now apply file_calls_no_credentials.
Qed.

Lemma RunE_local_no_credentials_witness :
  let env := sample_env None [own_identity] (Ok []) None in
  let command := flags_of "/home/me/.ssh/id_rsa" true false false in
  flag_local command = true /\
  let w' := snd (RunE env command sample_world) in
  existsb is_credential_call (since sample_world w') = false /\
  open_conns w' = open_conns sample_world.
Proof.
  intros env command.
  assert (h : flag_local command = true) by reflexivity.
  split; [exact h|].
  exact (RunE_local_no_credentials env command sample_world h).
Defined.

(** X21.  With [--local] the install command is executed first whatever
    [--skip-install] says; when it fails, its error is returned as it is
    and the kubeconfig is not fetched. *)
Theorem RunE_local_runs_install (env : Env) (command : Flags) (w : World) :
  refused command = None ->
  flag_local command = true ->
  let '(r, w') := RunE env command w in
  (exists evs, since w w' = EvExecute Local (installK3scommand env command) :: evs) /\
  forall e, operator_Execute env Local (installK3scommand env command) = Err e ->
            r = Some (Passed e) /\
            since w w' = [EvExecute Local (installK3scommand env command)].
Proof.
  intros Hr Hl. rewrite (RunE_local_eq _ _ Hr Hl). unfold bind at 1. unfold Execute at 1.
  unfold_calls. cbn -[obtainKubeconfig].
  destruct (operator_Execute env Local (installK3scommand env command)) as [res|e];
    cbn -[obtainKubeconfig].
  2:{ erewrite since_app by (tidy_trace; reflexivity).
      split; [now exists []|]. intros e' [= <-]. now split. }
  match goal with
  | |- context [obtainKubeconfig env ?o ?c ?i ?x ?l ?m ?w0] =>
      pose proof (obtainKubeconfig_trace env o c i x l m w0) as H;
      destruct (obtainKubeconfig env o c i x l m w0) as [r w1]
  end.
  cbn in H. destruct H as ((evs & Ht & _) & _).
  split; [|discriminate].
  erewrite since_app by (rewrite Ht; tidy_trace; reflexivity). eauto.
Qed.

Lemma RunE_local_runs_install_witness :
  let env := sample_env None [] (Ok []) None in
  let command := flags_of "" true true false in
  refused command = None /\
  flag_local command = true /\
  let '(r, w') := RunE env command sample_world in
  (exists evs, since sample_world w'
               = EvExecute Local (installK3scommand env command) :: evs) /\
  forall e, operator_Execute env Local (installK3scommand env command) = Err e ->
            r = Some (Passed e) /\
            since sample_world w' = [EvExecute Local (installK3scommand env command)].
Proof.
  intros env command.
  assert (h1 : refused command = None) by (vm_compute; reflexivity).
  assert (h2 : flag_local command = true) by reflexivity.
  split; [exact h1|]. split; [exact h2|].
  exact (RunE_local_runs_install env command sample_world h1 h2).
Defined.

(** X22.  When credentials cannot be resolved, a remote install returns
    the error of [loadAuthMethod] as it is and does nothing more: no SSH
    connection is dialed and nothing is executed. *)
Theorem RunE_credential_error
    (env : Env) (command : Flags) (w w1 : World)
    (auth : option AuthMethod) (close : closeFunc) (e : error) :
  refused command = None ->
  flag_local command = false ->
  loadAuthMethod env (expandPath env (flag_ssh_key command)) w
    = ((auth, close, Some e), w1) ->
  RunE env command w = (Some e, w1).
Proof.
  intros Hr Hl Hload. rewrite (RunE_remote_eq _ _ Hr Hl).
  unfold bind at 1. now rewrite Hload.
Qed.

Lemma RunE_credential_error_witness :
  let env := sample_env None [] (Ok []) None in
  let command := flags_of "/home/me/.ssh/damaged" false false false in
  let w1 := {| files := sample_files; modes := sample_modes;
               dialed := 0; open_conns := [];
               trace := [EvReadFile "/home/me/.ssh/damaged"] |} in
  refused command = None /\
  flag_local command = false /\
  loadAuthMethod env (expandPath env (flag_ssh_key command)) sample_world
    = ((None, noopCloseFunc, Some (KeyParseError "ssh: no key found")), w1) /\
  RunE env command sample_world = (Some (KeyParseError "ssh: no key found"), w1).
Proof.
  intros env command w1.
  assert (h1 : refused command = None) by (vm_compute; reflexivity).
  assert (h2 : flag_local command = false) by reflexivity.
  assert (h3 : loadAuthMethod env (expandPath env (flag_ssh_key command)) sample_world
               = ((None, noopCloseFunc, Some (KeyParseError "ssh: no key found")), w1))
    by (vm_compute; reflexivity).
  split; [exact h1|]. split; [exact h2|]. split; [exact h3|].
  exact (RunE_credential_error env command sample_world w1 _ _ _ h1 h2 h3).
Defined.

(** X23.  When the SSH connection cannot be made, a remote install
    fails with [ConnectError] on the address; nothing is executed, and
    the close function of the credentials is called, once, after the
    attempt. *)
Theorem RunE_connect_failure
    (env : Env) (command : Flags) (w w1 : World)
    (auth : option AuthMethod) (close : closeFunc) (e : oserror) :
  refused command = None ->
  flag_local command = false ->
  loadAuthMethod env (expandPath env (flag_ssh_key command)) w
    = ((auth, close, None), w1) ->
  NewSSHOperator_error env (ssh_address command) (flag_user command) auth = Some e ->
  let '(r, w') := RunE env command w in
  r = Some (ConnectError (ssh_address command) e) /\
  trace w' = trace w1
             ++ EvSSHDial (ssh_address command) (flag_user command) auth
             :: close_calls close.
Proof.
  intros Hr Hl Hload Hc. rewrite (RunE_remote_eq _ _ Hr Hl).
  unfold bind at 1. rewrite Hload. unfold defer at 1, bind at 1, bind at 1.
  unfold NewSSHOperator at 1. unfold bind at 1, emit at 1, ret at 1. rewrite Hc.
  unfold ret at 1, bind at 1.
  match goal with
  | |- context [call close ?w0] =>
      pose proof (call_spec close w0) as H; destruct (call close w0) as [u w2]
  end.
  cbn in H |- *. destruct H as (Ht & _). split; [reflexivity|].
  rewrite Ht. now rewrite <- app_assoc.
Qed.

(** X24.  When the install command fails on the remote host, the run
    stops with [ExecutionError]: the kubeconfig is not fetched, the SSH
    operator is closed, and then the close function of the credentials
    is called. *)
Theorem RunE_install_failure
    (env : Env) (command : Flags) (w w1 : World)
    (auth : option AuthMethod) (close : closeFunc) (e : oserror) :
  refused command = None ->
  flag_local command = false ->
  flag_skip_install command = false ->
  loadAuthMethod env (expandPath env (flag_ssh_key command)) w
    = ((auth, close, None), w1) ->
  NewSSHOperator_error env (ssh_address command) (flag_user command) auth = None ->
  operator_Execute env (Remote (ssh_address command)) (installK3scommand env command)
    = Err e ->
  let '(r, w') := RunE env command w in
  r = Some (ExecutionError e) /\
  trace w' = trace w1
             ++ [EvSSHDial (ssh_address command) (flag_user command) auth;
                 EvExecute (Remote (ssh_address command)) (installK3scommand env command);
                 EvOperatorClose (ssh_address command)]
             ++ close_calls close.
Proof.
  intros Hr Hl Hs Hload Hc He. rewrite (RunE_remote_eq _ _ Hr Hl).
  unfold bind at 1. rewrite Hload, Hs. cbn [negb].
  unfold defer at 1, bind at 1, bind at 1.
  unfold NewSSHOperator at 1. unfold bind at 1, emit at 1, ret at 1. rewrite Hc.
  unfold Execute, defer, bind, emit, ret. rewrite He.
  match goal with
  | |- context [call close ?w0] =>
      pose proof (call_spec close w0) as H; destruct (call close w0) as [u w2]
  end.
  cbn in H |- *. destruct H as (Ht & _). split; [reflexivity|].
  rewrite Ht. now rewrite <- !app_assoc.
Qed.

(** X25.  Once the SSH connection is made, whatever happens afterwards,
    the run ends by closing the SSH operator and then calling the close
    function of the credentials, each once; in between it only executes
    commands and works on files. *)
Theorem RunE_releases_in_order
    (env : Env) (command : Flags) (w w1 : World)
    (auth : option AuthMethod) (close : closeFunc) :
  refused command = None ->
  flag_local command = false ->
  loadAuthMethod env (expandPath env (flag_ssh_key command)) w
    = ((auth, close, None), w1) ->
  NewSSHOperator_error env (ssh_address command) (flag_user command) auth = None ->
  let w' := snd (RunE env command w) in
  exists evs,
    trace w' = trace w1
               ++ EvSSHDial (ssh_address command) (flag_user command) auth
               :: evs ++ EvOperatorClose (ssh_address command) :: close_calls close /\
    existsb is_credential_call evs = false.
Proof.
  intros Hr Hl Hload Hc. rewrite (RunE_remote_eq _ _ Hr Hl).
  unfold bind at 1. rewrite Hload.
  unfold defer at 1, bind at 1, bind at 1.
  unfold NewSSHOperator at 1. unfold bind at 1, emit at 1, ret at 1. rewrite Hc.
  unfold Execute, defer, bind, emit, ret.
  destruct (flag_skip_install command); cbn [negb].
  - match goal with
    | |- context [obtainKubeconfig env ?o ?c ?i ?x ?l ?m ?w0] =>
        pose proof (obtainKubeconfig_trace env o c i x l m w0) as H;
        destruct (obtainKubeconfig env o c i x l m w0) as [r w2]
    end.
    cbn in H. destruct H as ((evs & Ht & Hf) & _).
    match goal with
    | |- context [call close ?w0] =>
        pose proof (call_spec close w0) as H; destruct (call close w0) as [u w3]
    end.
    cbn in H |- *. destruct H as (Ht' & _). rewrite Ht', Ht.
    eexists (_ :: evs). split; [rewrite <- !app_assoc; reflexivity|].
    cbn. now apply file_calls_no_credentials.
  - destruct (operator_Execute env (Remote (ssh_address command))
                (installK3scommand env command)) as [res|e].
    + match goal with
      | |- context [obtainKubeconfig env ?o ?c ?i ?x ?l ?m ?w0] =>
          pose proof (obtainKubeconfig_trace env o c i x l m w0) as H;
          destruct (obtainKubeconfig env o c i x l m w0) as [r w2]
      end.
      cbn in H. destruct H as ((evs & Ht & Hf) & _).
      match goal with
      | |- context [call close ?w0] =>
          pose proof (call_spec close w0) as H; destruct (call close w0) as [u w3]
      end.
      cbn in H |- *. destruct H as (Ht' & _). rewrite Ht', Ht.
      eexists (_ :: _ :: evs). split; [rewrite <- !app_assoc; reflexivity|].
      cbn. now apply file_calls_no_credentials.
    + match goal with
      | |- context [call close ?w0] =>
          pose proof (call_spec close w0) as H; destruct (call close w0) as [u w3]
      end.
      cbn in H |- *. destruct H as (Ht' & _). rewrite Ht'.
      eexists [_]. split; [rewrite <- !app_assoc; reflexivity|reflexivity].
Qed.

(** X26.  With [--skip-install] a remote install executes exactly one
    command, the one that prints the kubeconfig: the install command is
    not run. *)
Theorem RunE_skip_install
    (env : Env) (command : Flags) (w w1 : World)
    (auth : option AuthMethod) (close : closeFunc) :
  refused command = None ->
  flag_local command = false ->
  flag_skip_install command = true ->
  loadAuthMethod env (expandPath env (flag_ssh_key command)) w
    = ((auth, close, None), w1) ->
  NewSSHOperator_error env (ssh_address command) (flag_user command) auth = None ->
  let w' := snd (RunE env command w) in
  exists evs,
    trace w' = trace w1
               ++ EvSSHDial (ssh_address command) (flag_user command) auth
               :: EvExecute (Remote (ssh_address command)) (getConfigcommand command)
               :: evs /\
    existsb is_Execute evs = false.
Proof.
  intros Hr Hl Hs Hload Hc. rewrite (RunE_remote_eq _ _ Hr Hl).
  unfold bind at 1. rewrite Hload, Hs. cbn [negb].
  unfold defer at 1, bind at 1, bind at 1.
  unfold NewSSHOperator at 1. unfold bind at 1, emit at 1, ret at 1. rewrite Hc.
  unfold defer, bind, emit, ret.
  match goal with
  | |- context [obtainKubeconfig env ?o ?c ?i ?x ?l ?m ?w0] =>
      pose proof (obtainKubeconfig_trace env o c i x l m w0) as H;
      destruct (obtainKubeconfig env o c i x l m w0) as [r w2]
  end.
  cbn in H. destruct H as ((evs & Ht & Hf) & _).
  match goal with
  | |- context [call close ?w0] =>
      pose proof (call_spec close w0) as H; destruct (call close w0) as [u w3]
  end.
  cbn in H |- *. destruct H as (Ht' & _). rewrite Ht', Ht.
  exists (evs ++ EvOperatorClose (ssh_address command) :: close_calls close).
  split; [rewrite <- !app_assoc; reflexivity|].
  rewrite existsb_app, (file_calls_no_Execute _ Hf). cbn. now destruct close.
Qed.

Lemma RunE_connect_failure_witness :
  let env := with_NewSSHOperator_error (fun _ _ _ => Some "connection refused")
               (sample_env None [] (Ok []) None) in
  let command := flags_of "" false false false in
  refused command = None /\
  flag_local command = false /\
  loadAuthMethod env (expandPath env (flag_ssh_key command)) sample_world
    = ((Some (PublicKeysCallback 0), connClose 0, None), agent_world) /\
  NewSSHOperator_error env (ssh_address command) (flag_user command)
    (Some (PublicKeysCallback 0)) = Some "connection refused" /\
  let '(r, w') := RunE env command sample_world in
  r = Some (ConnectError (ssh_address command) "connection refused") /\
  trace w' = trace agent_world
             ++ EvSSHDial (ssh_address command) (flag_user command)
                  (Some (PublicKeysCallback 0))
             :: close_calls (connClose 0).
Proof.
  intros env command.
  assert (h1 : refused command = None)
    by (vm_compute; reflexivity).
  assert (h2 : flag_local command = false)
    by (reflexivity).
  assert (h3 : loadAuthMethod env (expandPath env (flag_ssh_key command)) sample_world
    = ((Some (PublicKeysCallback 0), connClose 0, None), agent_world))
    by (vm_compute; reflexivity).
  assert (h4 : NewSSHOperator_error env (ssh_address command) (flag_user command)
    (Some (PublicKeysCallback 0)) = Some "connection refused")
    by (reflexivity).
  split; [exact h1|]. split; [exact h2|]. split; [exact h3|]. split; [exact h4|].
  exact (RunE_connect_failure env command sample_world agent_world _ _ _ h1 h2 h3 h4).
Defined.

Lemma RunE_install_failure_witness :
  let env := with_Execute (fun _ _ => Err "Process exited with status 1")
               (sample_env None [] (Ok []) None) in
  let command := flags_of "" false false false in
  refused command = None /\
  flag_local command = false /\
  flag_skip_install command = false /\
  loadAuthMethod env (expandPath env (flag_ssh_key command)) sample_world
    = ((Some (PublicKeysCallback 0), connClose 0, None), agent_world) /\
  NewSSHOperator_error env (ssh_address command) (flag_user command)
    (Some (PublicKeysCallback 0)) = None /\
  operator_Execute env (Remote (ssh_address command)) (installK3scommand env command)
    = Err "Process exited with status 1" /\
  let '(r, w') := RunE env command sample_world in
  r = Some (ExecutionError "Process exited with status 1") /\
  trace w' = trace agent_world
             ++ [EvSSHDial (ssh_address command) (flag_user command)
                   (Some (PublicKeysCallback 0));
                 EvExecute (Remote (ssh_address command)) (installK3scommand env command);
                 EvOperatorClose (ssh_address command)]
             ++ close_calls (connClose 0).
Proof.
  intros env command.
  assert (h1 : refused command = None)
    by (vm_compute; reflexivity).
  assert (h2 : flag_local command = false)
    by (reflexivity).
  assert (h0 : flag_skip_install command = false)
    by (reflexivity).
  assert (h3 : loadAuthMethod env (expandPath env (flag_ssh_key command)) sample_world
    = ((Some (PublicKeysCallback 0), connClose 0, None), agent_world))
    by (vm_compute; reflexivity).
  assert (h4 : NewSSHOperator_error env (ssh_address command) (flag_user command)
    (Some (PublicKeysCallback 0)) = None)
    by (reflexivity).
  assert (h5 : operator_Execute env (Remote (ssh_address command)) (installK3scommand env command)
    = Err "Process exited with status 1")
    by (reflexivity).
  split; [exact h1|]. split; [exact h2|]. split; [exact h0|]. split; [exact h3|]. split; [exact h4|]. split; [exact h5|].
  exact (RunE_install_failure env command sample_world agent_world _ _ _ h1 h2 h0 h3 h4 h5).
Defined.

Lemma RunE_releases_in_order_witness :
  let env := sample_env None [] (Ok (b "clusters: [old, new]")) None in
  let command := flags_of "" false false true in
  refused command = None /\
  flag_local command = false /\
  loadAuthMethod env (expandPath env (flag_ssh_key command)) sample_world
    = ((Some (PublicKeysCallback 0), connClose 0, None), agent_world) /\
  NewSSHOperator_error env (ssh_address command) (flag_user command)
    (Some (PublicKeysCallback 0)) = None /\
  let w' := snd (RunE env command sample_world) in
  exists evs,
    trace w' = trace agent_world
               ++ EvSSHDial (ssh_address command) (flag_user command)
                    (Some (PublicKeysCallback 0))
               :: evs ++ EvOperatorClose (ssh_address command)
                  :: close_calls (connClose 0) /\
    existsb is_credential_call evs = false.
Proof.
  intros env command.
  assert (h1 : refused command = None)
    by (vm_compute; reflexivity).
  assert (h2 : flag_local command = false)
    by (reflexivity).
  assert (h3 : loadAuthMethod env (expandPath env (flag_ssh_key command)) sample_world
    = ((Some (PublicKeysCallback 0), connClose 0, None), agent_world))
    by (vm_compute; reflexivity).
  assert (h4 : NewSSHOperator_error env (ssh_address command) (flag_user command)
    (Some (PublicKeysCallback 0)) = None)
    by (reflexivity).
  split; [exact h1|]. split; [exact h2|]. split; [exact h3|]. split; [exact h4|].
  exact (RunE_releases_in_order env command sample_world agent_world _ _ h1 h2 h3 h4).
Defined.

Lemma RunE_skip_install_witness :
  let env := sample_env None [] (Ok []) None in
  let command := flags_of "" false true false in
  refused command = None /\
  flag_local command = false /\
  flag_skip_install command = true /\
  loadAuthMethod env (expandPath env (flag_ssh_key command)) sample_world
    = ((Some (PublicKeysCallback 0), connClose 0, None), agent_world) /\
  NewSSHOperator_error env (ssh_address command) (flag_user command)
    (Some (PublicKeysCallback 0)) = None /\
  let w' := snd (RunE env command sample_world) in
  exists evs,
    trace w' = trace agent_world
               ++ EvSSHDial (ssh_address command) (flag_user command)
                    (Some (PublicKeysCallback 0))
               :: EvExecute (Remote (ssh_address command)) (getConfigcommand command)
               :: evs /\
    existsb is_Execute evs = false.
Proof.
  intros env command.
  assert (h1 : refused command = None)
    by (vm_compute; reflexivity).
  assert (h2 : flag_local command = false)
    by (reflexivity).
  assert (h0 : flag_skip_install command = true)
    by (reflexivity).
  assert (h3 : loadAuthMethod env (expandPath env (flag_ssh_key command)) sample_world
    = ((Some (PublicKeysCallback 0), connClose 0, None), agent_world))
    by (vm_compute; reflexivity).
  assert (h4 : NewSSHOperator_error env (ssh_address command) (flag_user command)
    (Some (PublicKeysCallback 0)) = None)
    by (reflexivity).
  split; [exact h1|]. split; [exact h2|]. split; [exact h0|]. split; [exact h3|]. split; [exact h4|].
  exact (RunE_skip_install env command sample_world agent_world _ _ h1 h2 h0 h3 h4).
Defined.
